(** * football_bkd: the refresh-and-cache proxy, embedded and verified

    The repository holds three listings of one Express server:
    - [src/server.js]: the four caches are plain [let] variables;
    - [src/unnamed/part_000], lines 1-187: one [NodeCache] store, shaping
      written with optional chaining ([localTeam?.id], [state?.state?...]);
    - [src/unnamed/part_000], lines 189-356: the [NodeCache] store, with the
      shaping of [src/server.js] left as it was.

    JavaScript values are embedded as a tree type; evaluation that can raise
    a [TypeError] runs in an error monad; the module-level variables, the
    console and the requests sent upstream are threaded as explicit state. *)

From stdpp Require Import base strings gmap list.
From Stdlib Require Import ZArith Lia Ascii String.

Set Warnings "-register-all".

Local Open Scope string_scope.
Local Open Scope Z_scope.

(** ** JavaScript values and the operators the listings use *)

Module Js.

(** A value as [JSON.parse] or an object literal produces it.  Numbers are
    the integers the upstream sends (ids, goals, minutes).  An object is the
    list of its own properties, in insertion order, keys distinct. *)
Inductive value : Type :=
| VUndefined
| VNull
| VBool (b : bool)
| VNum (n : Z)
| VStr (s : string)
| VArr (elems : list value)
| VObj (props : list (string * value)).

Inductive exn : Type :=
| TypeError (message : string)
| AxiosError (response : value) (message : string).

Inductive result (A : Type) : Type :=
| Ok (a : A)
| Throw (e : exn).
Arguments Ok {A} a.
Arguments Throw {A} e.

Definition bind {A B : Type} (r : result A) (k : A -> result B) : result B :=
  match r with
  | Ok a => k a
  | Throw e => Throw e
  end.

Notation "x <- e ;; k" := (bind e (fun x => k))
  (at level 100, e at level 99, k at level 200, right associativity,
   format "'[v' x  <-  e  ;;  '/' k ']'").

Definition nullish (v : value) : bool :=
  match v with
  | VUndefined | VNull => true
  | _ => false
  end.

(** ToBoolean. *)
Definition truthy (v : value) : bool :=
  match v with
  | VUndefined | VNull => false
  | VBool b => b
  | VNum n => negb (n =? 0)
  | VStr s => negb (String.eqb s "")
  | VArr _ | VObj _ => true
  end.

(** [a || b] *)
Definition or_else (a b : value) : value := if truthy a then a else b.

(** [a === b].  Two objects or arrays are equal only as the same reference;
    the operands compared in the listings are distinct nodes of a parsed
    body, so object operands compare unequal. *)
Definition strict_eq (a b : value) : bool :=
  match a, b with
  | VUndefined, VUndefined => true
  | VNull, VNull => true
  | VBool x, VBool y => Bool.eqb x y
  | VNum x, VNum y => x =? y
  | VStr x, VStr y => String.eqb x y
  | _, _ => false
  end.

Fixpoint own (props : list (string * value)) (k : string) : value :=
  match props with
  | [] => VUndefined
  | (k', v) :: rest => if String.eqb k' k then v else own rest k
  end.

(** [v.k] for a value that is not nullish.  It covers the property names the
    listings read: own properties of objects, and [length] of arrays and
    strings; none of the other names is an inherited property. *)
Definition prop (v : value) (k : string) : value :=
  match v with
  | VObj props => own props k
  | VArr l => if String.eqb k "length" then VNum (Z.of_nat (List.length l)) else VUndefined
  | VStr s => if String.eqb k "length" then VNum (Z.of_nat (String.length s)) else VUndefined
  | _ => VUndefined
  end.

Definition show_nullish (v : value) : string :=
  match v with VNull => "null" | _ => "undefined" end.

Definition cannot_read (v : value) (k : string) : exn :=
  TypeError ("Cannot read properties of " ++ show_nullish v ++ " (reading '" ++ k ++ "')").

(** The engine names the callee expression as it is written at the call:
    [footballLiveScoresCache.map is not a function]. *)
Definition not_a_function (callee : string) : exn :=
  TypeError (callee ++ " is not a function").

(** [v.k] *)
Definition member (v : value) (k : string) : result value :=
  if nullish v then Throw (cannot_read v k) else Ok (prop v k).

(** [v?.k] *)
Definition opt_member (v : value) (k : string) : value :=
  if nullish v then VUndefined else prop v k.

(** [Array.prototype.find]: the first element the callback accepts; the
    callback runs on the elements in order and may throw. *)
Fixpoint array_find (cb : value -> result value) (l : list value) : result value :=
  match l with
  | [] => Ok VUndefined
  | x :: rest =>
      b <- cb x ;;
      if truthy b then Ok x else array_find cb rest
  end.

Fixpoint array_map (cb : value -> result value) (l : list value) : result (list value) :=
  match l with
  | [] => Ok []
  | x :: rest =>
      y <- cb x ;;
      ys <- array_map cb rest ;;
      Ok (y :: ys)
  end.

(** [v.find(cb)]: only an array has the method.  [callee] is the text of
    the expression called, which the error of a receiver without the
    method names. *)
Definition call_find (callee : string) (v : value) (cb : value -> result value)
  : result value :=
  match v with
  | VArr l => array_find cb l
  | VUndefined | VNull => Throw (cannot_read v "find")
  | _ => Throw (not_a_function callee)
  end.

(** [v.map(cb)] *)
Definition call_map (callee : string) (v : value) (cb : value -> result value)
  : result value :=
  match v with
  | VArr l => ys <- array_map cb l ;; Ok (VArr ys)
  | VUndefined | VNull => Throw (cannot_read v "map")
  | _ => Throw (not_a_function callee)
  end.

Definition upper_ascii (c : ascii) : ascii :=
  let n := nat_of_ascii c in
  if (97 <=? n)%nat && (n <=? 122)%nat then ascii_of_nat (n - 32) else c.

(** [String.prototype.toUpperCase] on a string of ASCII characters, as the
    state codes of the upstream are: the letters [a] to [z] are raised, every
    other byte is kept. *)
Fixpoint toUpperCase (s : string) : string :=
  match s with
  | EmptyString => EmptyString
  | String c rest => String (upper_ascii c) (toUpperCase rest)
  end.

(** [v.toUpperCase()]: only a string has the method. *)
Definition call_toUpperCase (callee : string) (v : value) : result value :=
  match v with
  | VStr s => Ok (VStr (toUpperCase s))
  | VUndefined | VNull => Throw (cannot_read v "toUpperCase")
  | _ => Throw (not_a_function callee)
  end.

(** [v?.toUpperCase()]: a nullish receiver ends the chain with [undefined]. *)
Definition opt_call_toUpperCase (callee : string) (v : value) : result value :=
  if nullish v then Ok VUndefined else call_toUpperCase callee v.

(** [v?.find(cb)] *)
Definition opt_call_find (callee : string) (v : value) (cb : value -> result value)
  : result value :=
  if nullish v then Ok VUndefined else call_find callee v cb.

(** [err.response?.data?.message || err.message], the text the [catch]
    blocks print. *)
Definition error_text (e : exn) : value :=
  match e with
  | TypeError m => VStr m
  | AxiosError response m =>
      or_else (opt_member (opt_member response "data") "message") (VStr m)
  end.

End Js.

Import Js.

(** ** What the listings share: the console, the upstream and the responses *)

Inductive level : Type := Log | Warn | Error.

(** One call of [console.log], [console.warn] or [console.error] with its
    arguments; the pieces of a template literal are listed in order. *)
Record line : Type := Line { lvl : level; args : list value }.

(** One [axios.get(url, { params })]. *)
Record request : Type := Request { url : string; params : list (string * value) }.

(** How the awaited call ends: the response, whose [data] is the body, or a
    rejection (network failure, status outside 2xx). *)
Inductive outcome : Type :=
| Resolved (body : value)
| Rejected (err : exn).

(** [const { data } = await axios.get(...)] *)
Definition await (reply : outcome) : result value :=
  match reply with
  | Resolved body => Ok body
  | Rejected err => Throw err
  end.

Inductive task : Type := Leagues | Teams | LiveScores | Fixtures.

(** What Express sends: [res.json(body)] with the default status, or its
    error handler's answer when the route handler throws. *)
Inductive response : Type :=
| Json (body : value)
| InternalServerError (err : exn).

Definition respond (r : result value) : response :=
  match r with
  | Ok body => Json body
  | Throw e => InternalServerError e
  end.

Definition status_code (r : response) : Z :=
  match r with
  | Json _ => 200
  | InternalServerError _ => 500
  end.

(** The periods of the four [setInterval] calls, in milliseconds
    ([src/server.js], lines 117-120; [part_000], lines 113-116 and 299-302). *)
Definition interval (t : task) : Z :=
  match t with
  | LiveScores => 15 * 1000
  | Fixtures => 15 * 60 * 1000
  | Leagues => 60 * 60 * 1000
  | Teams => 60 * 60 * 1000
  end.

Definition BASE_URL : string := "https://api.sportmonks.com/v3/football".

(** [(x) => ({ id: x.id, name: x.name, image_path: x.image_path })], the
    callback of the leagues and teams tasks. *)
Definition summary (x : value) : result value :=
  id <- member x "id" ;;
  name <- member x "name" ;;
  image_path <- member x "image_path" ;;
  Ok (VObj [("id", id); ("name", name); ("image_path", image_path)]).

(** [p => p.meta.location === loc] *)
Definition located (loc : string) (p : value) : result value :=
  meta <- member p "meta" ;;
  location <- member meta "location" ;;
  Ok (VBool (strict_eq location (VStr loc))).

(** [p => p.type === '2hg'] *)
Definition is_2hg (p : value) : result value :=
  type <- member p "type" ;;
  Ok (VBool (strict_eq type (VStr "2hg"))).

(** [match.round?.name || 'N/A'] *)
Definition round_name (m : value) : result value :=
  round <- member m "round" ;;
  Ok (or_else (opt_member round "name") (VStr "N/A")).

(** [match.periods?.find(p => p.type === '2hg')?.minutes] *)
Definition minute_of (m : value) : result value :=
  periods <- member m "periods" ;;
  period <- opt_call_find "match.periods?.find" periods is_2hg ;;
  Ok (opt_member period "minutes").

(** ** [src/server.js]: plain variables, shaping without guards *)

Module ServerJs.

(** The four module-level caches (lines 25-28), with the console output and
    the requests sent upstream so far. *)
Record world : Type := World {
  footballLiveScoresCache : value;
  footballTeamsCache : value;
  footballLeaguesCache : value;
  footballFixturesCache : value;
  console : list line;
  sent : list request;
}.

Definition start : world :=
  {| footballLiveScoresCache := VArr [];
     footballTeamsCache := VArr [];
     footballLeaguesCache := VArr [];
     footballFixturesCache := VArr [];
     console := [];
     sent := [] |}.

Definition print (l : level) (a : list value) (w : world) : world :=
  {| footballLiveScoresCache := footballLiveScoresCache w;
     footballTeamsCache := footballTeamsCache w;
     footballLeaguesCache := footballLeaguesCache w;
     footballFixturesCache := footballFixturesCache w;
     console := console w ++ [Line l a];
     sent := sent w |}.

Definition axios_get (path : string) (p : list (string * value)) (w : world) : world :=
  {| footballLiveScoresCache := footballLiveScoresCache w;
     footballTeamsCache := footballTeamsCache w;
     footballLeaguesCache := footballLeaguesCache w;
     footballFixturesCache := footballFixturesCache w;
     console := console w;
     sent := sent w ++ [Request (BASE_URL +:+ path) p] |}.

Definition assign (t : task) (v : value) (w : world) : world :=
  {| footballLiveScoresCache :=
       match t with LiveScores => v | _ => footballLiveScoresCache w end;
     footballTeamsCache :=
       match t with Teams => v | _ => footballTeamsCache w end;
     footballLeaguesCache :=
       match t with Leagues => v | _ => footballLeaguesCache w end;
     footballFixturesCache :=
       match t with Fixtures => v | _ => footballFixturesCache w end;
     console := console w;
     sent := sent w |}.

(** The variable a task assigns and a route reads. *)
Definition cache (t : task) (w : world) : value :=
  match t with
  | Leagues => footballLeaguesCache w
  | Teams => footballTeamsCache w
  | LiveScores => footballLiveScoresCache w
  | Fixtures => footballFixturesCache w
  end.

(** Each task is given the way its awaited request ends.  Nothing before
    the [await] reads a cache, so the task is run as one step, at the moment
    the request settles. *)

(** Lines 32-47. *)
Definition fetchFootballLeagues (API_TOKEN : value) (reply : outcome) (w : world) : world :=
  if negb (truthy API_TOKEN) then w
  else
    let w := axios_get "/leagues" [("api_token", API_TOKEN)] w in
    match (data <- await reply ;;
           rows <- member data "data" ;;
           call_map "data.data.map" rows summary) with
    | Ok leagues =>
        print Log [VStr "Successfully fetched and cached football leagues."]
          (assign Leagues leagues w)
    | Throw err =>
        print Error [VStr "Football Leagues fetch error:"; error_text err] w
    end.

(** Lines 49-64. *)
Definition fetchFootballTeams (API_TOKEN : value) (reply : outcome) (w : world) : world :=
  if negb (truthy API_TOKEN) then w
  else
    let w := axios_get "/teams" [("api_token", API_TOKEN)] w in
    match (data <- await reply ;;
           rows <- member data "data" ;;
           call_map "data.data.map" rows summary) with
    | Ok teams =>
        print Log [VStr "Successfully fetched and cached football teams."]
          (assign Teams teams w)
    | Throw err =>
        print Error [VStr "Football Teams fetch error:"; error_text err] w
    end.

(** Lines 66-83. *)
Definition fetchFootballLiveScores (API_TOKEN : value) (reply : outcome) (w : world) : world :=
  if negb (truthy API_TOKEN) then
    print Warn [VStr "API token is not set. Skipping live score fetch."] w
  else
    let w := axios_get "/livescores"
               [("api_token", API_TOKEN);
                ("include", VStr "scores;participants;state;league")] w in
    match (data <- await reply ;;
           rows <- member data "data" ;;
           Ok (or_else rows (VArr []))) with
    | Ok rows =>
        let w := assign LiveScores rows w in
        print Log [VStr "Successfully fetched ";
                   prop (footballLiveScoresCache w) "length";
                   VStr " live football matches."] w
    | Throw err =>
        print Error [VStr "Football LiveScores fetch error:"; error_text err] w
    end.

(** Lines 86-103. *)
Definition fetchFootballFixtures (API_TOKEN : value) (reply : outcome) (w : world) : world :=
  if negb (truthy API_TOKEN) then
    print Warn [VStr "API token is not set. Skipping fixtures fetch."] w
  else
    let w := axios_get "/fixtures"
               [("api_token", API_TOKEN);
                ("include", VStr "participants;league;round;state")] w in
    match (data <- await reply ;;
           rows <- member data "data" ;;
           Ok (or_else rows (VArr []))) with
    | Ok rows =>
        let w := assign Fixtures rows w in
        print Log [VStr "Successfully fetched ";
                   prop (footballFixturesCache w) "length";
                   VStr " football fixtures."] w
    | Throw err =>
        print Error [VStr "Football Fixtures fetch error:"; error_text err] w
    end.

Definition refresh (API_TOKEN : value) (t : task) : outcome -> world -> world :=
  match t with
  | Leagues => fetchFootballLeagues API_TOKEN
  | Teams => fetchFootballTeams API_TOKEN
  | LiveScores => fetchFootballLiveScores API_TOKEN
  | Fixtures => fetchFootballFixtures API_TOKEN
  end.

(** [initializeData] (lines 107-112) and every later firing of the four
    intervals (lines 117-120): task runs, in the order their requests
    settle. *)
Fixpoint run (API_TOKEN : value) (schedule : list (task * outcome)) (w : world) : world :=
  match schedule with
  | [] => w
  | (t, reply) :: rest => run API_TOKEN rest (refresh API_TOKEN t reply w)
  end.

(** Lines 107-112: the four tasks, each awaited before the next starts,
    given the way each one's request ends. *)
Definition initializeData (API_TOKEN : value)
    (leagues teams liveScores fixtures : outcome) (w : world) : world :=
  let w := fetchFootballLeagues API_TOKEN leagues w in
  let w := fetchFootballTeams API_TOKEN teams w in
  let w := fetchFootballLiveScores API_TOKEN liveScores w in
  fetchFootballFixtures API_TOKEN fixtures w.

(** The callback of lines 125-148. *)
Definition shapeMatch (m : value) : result value :=
  participants <- member m "participants" ;;
  localTeam <- call_find "match.participants.find" participants (located "home") ;;
  participants <- member m "participants" ;;
  visitorTeam <- call_find "match.participants.find" participants (located "away") ;;
  scores <- member m "scores" ;;
  localTeamScore <-
    call_find "match.scores.find" scores (fun s =>
      participant_id <- member s "participant_id" ;;
      id <- member localTeam "id" ;;
      Ok (VBool (strict_eq participant_id id))) ;;
  scores <- member m "scores" ;;
  visitorTeamScore <-
    call_find "match.scores.find" scores (fun s =>
      participant_id <- member s "participant_id" ;;
      id <- member visitorTeam "id" ;;
      Ok (VBool (strict_eq participant_id id))) ;;
  id <- member m "id" ;;
  league_id <- member m "league_id" ;;
  round <- round_name m ;;
  localteam_id <- member localTeam "id" ;;
  visitorteam_id <- member visitorTeam "id" ;;
  starting_at <- member m "starting_at" ;;
  state <- member m "state" ;;
  state_state <- member state "state" ;;
  status <- call_toUpperCase "match.state.state.toUpperCase" state_state ;;
  minute <- minute_of m ;;
  state <- member m "state" ;;
  state_state <- member state "state" ;;
  local_id <- member localTeam "id" ;;
  visitor_id <- member visitorTeam "id" ;;
  participants <- member m "participants" ;;
  Ok (VObj [("id", id);
            ("league_id", league_id);
            ("round", round);
            ("localteam_id", localteam_id);
            ("visitorteam_id", visitorteam_id);
            ("starting_at", starting_at);
            ("status", status);
            ("minute", minute);
            ("live", VBool (strict_eq state_state (VStr "live")));
            ("scores",
             VArr [VObj [("team_id", local_id);
                         ("score", or_else (opt_member localTeamScore "goals") (VNum 0))];
                   VObj [("team_id", visitor_id);
                         ("score", or_else (opt_member visitorTeamScore "goals") (VNum 0))]]);
            ("participants", participants)]).

(** The callback of lines 154-171. *)
Definition shapeFixture (fixture : value) : result value :=
  participants <- member fixture "participants" ;;
  localTeam <- call_find "fixture.participants.find" participants (located "home") ;;
  participants <- member fixture "participants" ;;
  visitorTeam <- call_find "fixture.participants.find" participants (located "away") ;;
  id <- member fixture "id" ;;
  league_id <- member fixture "league_id" ;;
  round <- member fixture "round" ;;
  starting_at <- member fixture "starting_at" ;;
  state <- member fixture "state" ;;
  state_state <- member state "state" ;;
  status <- call_toUpperCase "fixture.state.state.toUpperCase" state_state ;;
  participants <- member fixture "participants" ;;
  local_id <- member localTeam "id" ;;
  visitor_id <- member visitorTeam "id" ;;
  Ok (VObj [("id", id);
            ("league_id", league_id);
            ("round", round);
            ("starting_at", starting_at);
            ("status", status);
            ("live", VBool false);
            ("participants", participants);
            ("scores",
             VArr [VObj [("participant_id", local_id); ("goals", VNum 0)];
                   VObj [("participant_id", visitor_id); ("goals", VNum 0)]])]).

(** [res.json({ data: payload })] *)
Definition envelope (payload : value) : value := VObj [("data", payload)].

(** Lines 124-150. *)
Definition getLiveScores (w : world) : result value :=
  shapedData <- call_map "footballLiveScoresCache.map" (footballLiveScoresCache w) shapeMatch ;;
  Ok (envelope shapedData).

(** Lines 153-173. *)
Definition getFixtures (w : world) : result value :=
  shapedData <- call_map "footballFixturesCache.map" (footballFixturesCache w) shapeFixture ;;
  Ok (envelope shapedData).

(** Line 176. *)
Definition getTeams (w : world) : result value :=
  Ok (envelope (footballTeamsCache w)).

(** Line 177. *)
Definition getLeagues (w : world) : result value :=
  Ok (envelope (footballLeaguesCache w)).

Definition route (t : task) : world -> result value :=
  match t with
  | Leagues => getLeagues
  | Teams => getTeams
  | LiveScores => getLiveScores
  | Fixtures => getFixtures
  end.

End ServerJs.

(** ** The cache store behind [appCache] *)

Module NodeCache.

(** Modelled from the spec: the [node-cache] package is a dependency whose
    code is not among the sources.  Section 3, CacheEntry: a stored value
    with the time it was stored and its time to live, in seconds. *)
Record entry : Type := Entry { value : Js.value; storedAt : Z; ttl : Z }.

(** Modelled from the spec: [node-cache] is not among the sources.  Section
    3, CacheStore: a mapping from key to at most one entry, with the two
    options [new NodeCache({ stdTTL, checkperiod })] is given. *)
Record t : Type := Store { stdTTL : Z; checkperiod : Z; data : gmap string entry }.

(** Modelled from the spec: [node-cache] is not among the sources.  The
    store is created empty. *)
Definition create (stdTTL checkperiod : Z) : t :=
  {| stdTTL := stdTTL; checkperiod := checkperiod; data := ∅ |}.

(** Modelled from the spec: the [node-cache] package is a dependency whose
    code is not among the sources.  Section 4.1: [set(key, value)] stores
    the value with [storedAt = now] and the configured default ttl, and
    overwrites any entry of the key unconditionally. *)
Definition set (now : Z) (key : string) (v : Js.value) (c : t) : t :=
  {| stdTTL := stdTTL c;
     checkperiod := checkperiod c;
     data := <[key := Entry v now (stdTTL c)]> (data c) |}.

(** Modelled from the spec: [node-cache] is not among the sources.  Section
    4.1: [get(key)] returns the stored value if [now - storedAt < ttl], and
    absent, which the callers see as [undefined], if the key was never set
    or has expired. *)
Definition get (now : Z) (key : string) (c : t) : Js.value :=
  match data c !! key with
  | Some e => if now - storedAt e <? ttl e then value e else VUndefined
  | None => VUndefined
  end.

(** Modelled from the spec: [node-cache] is not among the sources.  Section
    4.1: an entry is evicted when its age exceeds its ttl. *)
Definition expired (now : Z) (e : entry) : bool := ttl e <? now - storedAt e.

(** Modelled from the spec: [node-cache] is not among the sources.  Section
    4.1: the background sweep scans all entries and evicts any whose age
    exceeds its ttl. *)
Definition sweep (now : Z) (c : t) : t :=
  {| stdTTL := stdTTL c;
     checkperiod := checkperiod c;
     data := filter (fun kv => expired now kv.2 = false) (data c) |}.

End NodeCache.

(** ** The state of the two listings of [src/unnamed/part_000] *)

Module Cached.

(** [appCache] with the clock it reads (seconds), the console output and
    the requests sent upstream so far. *)
Record world : Type := World {
  appCache : NodeCache.t;
  now : Z;
  console : list line;
  sent : list request;
}.

(** Lines 15 and 204: [new NodeCache({ stdTTL: 60 * 15, checkperiod: 120 })]. *)
Definition start (t0 : Z) : world :=
  {| appCache := NodeCache.create (60 * 15) 120;
     now := t0;
     console := [];
     sent := [] |}.

Definition print (l : level) (a : list value) (w : world) : world :=
  {| appCache := appCache w; now := now w;
     console := console w ++ [Line l a]; sent := sent w |}.

Definition axios_get (path : string) (p : list (string * value)) (w : world) : world :=
  {| appCache := appCache w; now := now w;
     console := console w; sent := sent w ++ [Request (BASE_URL +:+ path) p] |}.

(** [appCache.set(key, v)] *)
Definition cache_set (key : string) (v : value) (w : world) : world :=
  {| appCache := NodeCache.set (now w) key v (appCache w); now := now w;
     console := console w; sent := sent w |}.

(** [appCache.get(key)] *)
Definition cache_get (key : string) (w : world) : value :=
  NodeCache.get (now w) key (appCache w).

Definition tick (seconds : Z) (w : world) : world :=
  {| appCache := appCache w; now := now w + seconds;
     console := console w; sent := sent w |}.

Definition sweep (w : world) : world :=
  {| appCache := NodeCache.sweep (now w) (appCache w); now := now w;
     console := console w; sent := sent w |}.

Definition key_of (t : task) : string :=
  match t with
  | Leagues => "leagues"
  | Teams => "teams"
  | LiveScores => "liveScores"
  | Fixtures => "fixtures"
  end.

(** What happens between two requests: a task whose request settles, time
    passing, or the store's background sweep. *)
Inductive event : Type :=
| Refresh (t : task) (reply : outcome)
| Tick (seconds : Z)
| Sweep.

End Cached.

(** ** [src/unnamed/part_000], lines 1-187: the store, shaping with guards *)

Module Part0.
Import Cached.

(** Lines 33-49. *)
Definition fetchFootballLeagues (API_TOKEN : value) (reply : outcome) (w : world) : world :=
  if negb (truthy API_TOKEN) then w
  else
    let w := axios_get "/leagues" [("api_token", API_TOKEN)] w in
    match (data <- await reply ;;
           rows <- member data "data" ;;
           call_map "data.data.map" rows summary) with
    | Ok leagues =>
        print Log [VStr "✅ Cached football leagues:"; prop leagues "length"]
          (cache_set "leagues" leagues w)
    | Throw err =>
        print Error [VStr "Football Leagues fetch error:"; error_text err] w
    end.

(** Lines 51-67. *)
Definition fetchFootballTeams (API_TOKEN : value) (reply : outcome) (w : world) : world :=
  if negb (truthy API_TOKEN) then w
  else
    let w := axios_get "/teams" [("api_token", API_TOKEN)] w in
    match (data <- await reply ;;
           rows <- member data "data" ;;
           call_map "data.data.map" rows summary) with
    | Ok teams =>
        print Log [VStr "✅ Cached football teams:"; prop teams "length"]
          (cache_set "teams" teams w)
    | Throw err =>
        print Error [VStr "Football Teams fetch error:"; error_text err] w
    end.

(** Lines 69-83. *)
Definition fetchFootballLiveScores (API_TOKEN : value) (reply : outcome) (w : world) : world :=
  if negb (truthy API_TOKEN) then w
  else
    let w := axios_get "/livescores"
               [("api_token", API_TOKEN);
                ("include", VStr "scores;participants;state;league")] w in
    match (data <- await reply ;;
           rows <- member data "data" ;;
           Ok (data, or_else rows (VArr []))) with
    | Ok (data, rows) =>
        print Log [VStr "✅ Cached football live matches:";
                   or_else (opt_member (prop data "data") "length") (VNum 0)]
          (cache_set "liveScores" rows w)
    | Throw err =>
        print Error [VStr "Football LiveScores fetch error:"; error_text err] w
    end.

(** Lines 85-99. *)
Definition fetchFootballFixtures (API_TOKEN : value) (reply : outcome) (w : world) : world :=
  if negb (truthy API_TOKEN) then w
  else
    let w := axios_get "/fixtures"
               [("api_token", API_TOKEN);
                ("include", VStr "participants;league;round;state")] w in
    match (data <- await reply ;;
           rows <- member data "data" ;;
           Ok (data, or_else rows (VArr []))) with
    | Ok (data, rows) =>
        print Log [VStr "✅ Cached football fixtures:";
                   or_else (opt_member (prop data "data") "length") (VNum 0)]
          (cache_set "fixtures" rows w)
    | Throw err =>
        print Error [VStr "Football Fixtures fetch error:"; error_text err] w
    end.

Definition refresh (API_TOKEN : value) (t : task) : outcome -> world -> world :=
  match t with
  | Leagues => fetchFootballLeagues API_TOKEN
  | Teams => fetchFootballTeams API_TOKEN
  | LiveScores => fetchFootballLiveScores API_TOKEN
  | Fixtures => fetchFootballFixtures API_TOKEN
  end.

Definition step (API_TOKEN : value) (e : event) (w : world) : world :=
  match e with
  | Refresh t reply => refresh API_TOKEN t reply w
  | Tick seconds => tick seconds w
  | Sweep => sweep w
  end.

(** [initializeData] (lines 104-111), the four intervals (lines 113-116)
    and the store's own timer, as the events they produce, in order. *)
Fixpoint run (API_TOKEN : value) (events : list event) (w : world) : world :=
  match events with
  | [] => w
  | e :: rest => run API_TOKEN rest (step API_TOKEN e w)
  end.

(** [match.state?.state?.toUpperCase() || "N/A"] (line 137) and the same
    on [fixture] (line 161); [record] is the name of the variable. *)
Definition status_of (record : string) (m : value) : result value :=
  state <- member m "state" ;;
  status <- opt_call_toUpperCase (record +:+ ".state?.state?.toUpperCase")
              (opt_member state "state") ;;
  Ok (or_else status (VStr "N/A")).

(** The callback of lines 124-146. *)
Definition shapeMatch (m : value) : result value :=
  participants <- member m "participants" ;;
  localTeam <- call_find "match.participants.find" participants (located "home") ;;
  participants <- member m "participants" ;;
  visitorTeam <- call_find "match.participants.find" participants (located "away") ;;
  scores <- member m "scores" ;;
  localTeamScore <-
    call_find "match.scores.find" scores (fun s =>
      participant_id <- member s "participant_id" ;;
      Ok (VBool (strict_eq participant_id (opt_member localTeam "id")))) ;;
  scores <- member m "scores" ;;
  visitorTeamScore <-
    call_find "match.scores.find" scores (fun s =>
      participant_id <- member s "participant_id" ;;
      Ok (VBool (strict_eq participant_id (opt_member visitorTeam "id")))) ;;
  id <- member m "id" ;;
  league_id <- member m "league_id" ;;
  round <- round_name m ;;
  starting_at <- member m "starting_at" ;;
  status <- status_of "match" m ;;
  minute <- minute_of m ;;
  state <- member m "state" ;;
  participants <- member m "participants" ;;
  Ok (VObj [("id", id);
            ("league_id", league_id);
            ("round", round);
            ("localteam_id", opt_member localTeam "id");
            ("visitorteam_id", opt_member visitorTeam "id");
            ("starting_at", starting_at);
            ("status", status);
            ("minute", minute);
            ("live", VBool (strict_eq (opt_member state "state") (VStr "live")));
            ("scores",
             VArr [VObj [("team_id", opt_member localTeam "id");
                         ("score", or_else (opt_member localTeamScore "goals") (VNum 0))];
                   VObj [("team_id", opt_member visitorTeam "id");
                         ("score", or_else (opt_member visitorTeamScore "goals") (VNum 0))]]);
            ("participants", participants)]).

(** The callback of lines 152-169. *)
Definition shapeFixture (fixture : value) : result value :=
  participants <- member fixture "participants" ;;
  localTeam <- call_find "fixture.participants.find" participants (located "home") ;;
  participants <- member fixture "participants" ;;
  visitorTeam <- call_find "fixture.participants.find" participants (located "away") ;;
  id <- member fixture "id" ;;
  league_id <- member fixture "league_id" ;;
  round <- member fixture "round" ;;
  starting_at <- member fixture "starting_at" ;;
  status <- status_of "fixture" fixture ;;
  participants <- member fixture "participants" ;;
  Ok (VObj [("id", id);
            ("league_id", league_id);
            ("round", round);
            ("starting_at", starting_at);
            ("status", status);
            ("live", VBool false);
            ("participants", participants);
            ("scores",
             VArr [VObj [("participant_id", opt_member localTeam "id"); ("goals", VNum 0)];
                   VObj [("participant_id", opt_member visitorTeam "id"); ("goals", VNum 0)]])]).

Definition envelope (payload : value) : value := VObj [("data", payload)].

(** Lines 122-148. *)
Definition getLiveScores (w : world) : result value :=
  let liveScores := or_else (cache_get "liveScores" w) (VArr []) in
  shapedData <- call_map "liveScores.map" liveScores shapeMatch ;;
  Ok (envelope shapedData).

(** Lines 150-171. *)
Definition getFixtures (w : world) : result value :=
  let fixtures := or_else (cache_get "fixtures" w) (VArr []) in
  shapedData <- call_map "fixtures.map" fixtures shapeFixture ;;
  Ok (envelope shapedData).

(** Lines 173-175. *)
Definition getTeams (w : world) : result value :=
  Ok (envelope (or_else (cache_get "teams" w) (VArr []))).

(** Lines 177-179. *)
Definition getLeagues (w : world) : result value :=
  Ok (envelope (or_else (cache_get "leagues" w) (VArr []))).

Definition route (t : task) : world -> result value :=
  match t with
  | Leagues => getLeagues
  | Teams => getTeams
  | LiveScores => getLiveScores
  | Fixtures => getFixtures
  end.

End Part0.

(** ** [src/unnamed/part_000], lines 189-356: the store, shaping unchanged *)

Module Part1.
Import Cached.

(** Lines 220-237. *)
Definition fetchFootballLeagues (API_TOKEN : value) (reply : outcome) (w : world) : world :=
  if negb (truthy API_TOKEN) then w
  else
    let w := axios_get "/leagues" [("api_token", API_TOKEN)] w in
    match (data <- await reply ;;
           rows <- member data "data" ;;
           call_map "data.data.map" rows summary) with
    | Ok leagues =>
        print Log [VStr "Successfully fetched and cached football leagues."]
          (cache_set "leagues" leagues w)
    | Throw err =>
        print Error [VStr "Football Leagues fetch error:"; error_text err] w
    end.

(** Lines 239-255. *)
Definition fetchFootballTeams (API_TOKEN : value) (reply : outcome) (w : world) : world :=
  if negb (truthy API_TOKEN) then w
  else
    let w := axios_get "/teams" [("api_token", API_TOKEN)] w in
    match (data <- await reply ;;
           rows <- member data "data" ;;
           call_map "data.data.map" rows summary) with
    | Ok teams =>
        print Log [VStr "Successfully fetched and cached football teams."]
          (cache_set "teams" teams w)
    | Throw err =>
        print Error [VStr "Football Teams fetch error:"; error_text err] w
    end.

(** Lines 257-271. *)
Definition fetchFootballLiveScores (API_TOKEN : value) (reply : outcome) (w : world) : world :=
  if negb (truthy API_TOKEN) then w
  else
    let w := axios_get "/livescores"
               [("api_token", API_TOKEN);
                ("include", VStr "scores;participants;state;league")] w in
    match (data <- await reply ;;
           rows <- member data "data" ;;
           Ok (data, or_else rows (VArr []))) with
    | Ok (data, rows) =>
        print Log [VStr "Successfully fetched ";
                   or_else (opt_member (prop data "data") "length") (VNum 0);
                   VStr " live football matches."]
          (cache_set "liveScores" rows w)
    | Throw err =>
        print Error [VStr "Football LiveScores fetch error:"; error_text err] w
    end.

(** Lines 273-287. *)
Definition fetchFootballFixtures (API_TOKEN : value) (reply : outcome) (w : world) : world :=
  if negb (truthy API_TOKEN) then w
  else
    let w := axios_get "/fixtures"
               [("api_token", API_TOKEN);
                ("include", VStr "participants;league;round;state")] w in
    match (data <- await reply ;;
           rows <- member data "data" ;;
           Ok (data, or_else rows (VArr []))) with
    | Ok (data, rows) =>
        print Log [VStr "Successfully fetched ";
                   or_else (opt_member (prop data "data") "length") (VNum 0);
                   VStr " football fixtures."]
          (cache_set "fixtures" rows w)
    | Throw err =>
        print Error [VStr "Football Fixtures fetch error:"; error_text err] w
    end.

Definition refresh (API_TOKEN : value) (t : task) : outcome -> world -> world :=
  match t with
  | Leagues => fetchFootballLeagues API_TOKEN
  | Teams => fetchFootballTeams API_TOKEN
  | LiveScores => fetchFootballLiveScores API_TOKEN
  | Fixtures => fetchFootballFixtures API_TOKEN
  end.

Definition step (API_TOKEN : value) (e : event) (w : world) : world :=
  match e with
  | Refresh t reply => refresh API_TOKEN t reply w
  | Tick seconds => tick seconds w
  | Sweep => sweep w
  end.

(** Lines 290-302 and the store's own timer, as the events they produce. *)
Fixpoint run (API_TOKEN : value) (events : list event) (w : world) : world :=
  match events with
  | [] => w
  | e :: rest => run API_TOKEN rest (step API_TOKEN e w)
  end.

(** Lines 312-329 repeat the callback of [src/server.js], lines 125-148,
    token for token. *)
Definition shapeMatch : value -> result value := ServerJs.shapeMatch.

(** Lines 335-346 repeat the callback of [src/server.js], lines 154-171. *)
Definition shapeFixture : value -> result value := ServerJs.shapeFixture.

Definition envelope (payload : value) : value := VObj [("data", payload)].

(** Lines 310-331. *)
Definition getLiveScores (w : world) : result value :=
  let liveScores := or_else (cache_get "liveScores" w) (VArr []) in
  shapedData <- call_map "liveScores.map" liveScores shapeMatch ;;
  Ok (envelope shapedData).

(** Lines 333-348. *)
Definition getFixtures (w : world) : result value :=
  let fixtures := or_else (cache_get "fixtures" w) (VArr []) in
  shapedData <- call_map "fixtures.map" fixtures shapeFixture ;;
  Ok (envelope shapedData).

(** Line 350. *)
Definition getTeams (w : world) : result value :=
  Ok (envelope (or_else (cache_get "teams" w) (VArr []))).

(** Line 351. *)
Definition getLeagues (w : world) : result value :=
  Ok (envelope (or_else (cache_get "leagues" w) (VArr []))).

Definition route (t : task) : world -> result value :=
  match t with
  | Leagues => getLeagues
  | Teams => getTeams
  | LiveScores => getLiveScores
  | Fixtures => getFixtures
  end.

End Part1.

(** ** Sample records *)

Definition participant (id : Z) (location : string) : value :=
  VObj [("id", VNum id); ("meta", VObj [("location", VStr location)])].

Definition score (participant_id goals : Z) : value :=
  VObj [("participant_id", VNum participant_id); ("goals", VNum goals)].

(** The match of section 8: participants 10 (home) and 20 (away), goals 2
    and 1, state [live]. *)
Definition live_match (id league_id starting_at round : value) : value :=
  VObj [("id", id);
        ("league_id", league_id);
        ("starting_at", starting_at);
        ("round", round);
        ("participants", VArr [participant 10 "home"; participant 20 "away"]);
        ("scores", VArr [score 10 2; score 20 1]);
        ("state", VObj [("state", VStr "live")])].

(** ** Vocabulary of the statements *)

(** The callback answers [x] with a falsy value. *)
Definition rejected (cb : value -> result value) (x : value) : Prop :=
  exists c, cb x = Ok c /\ truthy c = false.

(** A callback that the array [l] answers everywhere without throwing. *)
Definition answers (cb : value -> result value) (l : list value) : Prop :=
  Forall (fun x => exists b, cb x = Ok b) l.

(** What [find] returns: the first accepted element, after a prefix of
    rejected ones; [undefined] when every element is rejected. *)
Inductive found (cb : value -> result value) (l : list value) : value -> Prop :=
| found_first (pre post : list value) (x b : value) :
    l = (pre ++ x :: post)%list ->
    Forall (rejected cb) pre ->
    cb x = Ok b -> truthy b = true ->
    found cb l x
| found_none :
    Forall (rejected cb) l ->
    found cb l VUndefined.

(** [match.state?.state], the value both status derivations start from. *)
Definition state_state (m : value) : value := opt_member (prop m "state") "state".

(** The participant [find] picks for a location. *)
Definition team_at (loc : string) (m : value) : result value :=
  call_find "match.participants.find" (prop m "participants") (located loc).

Definition present (v : value) : bool := negb (nullish v).

Definition is_string (v : value) : bool :=
  match v with VStr _ => true | _ => false end.

Definition array_of (ok : value -> bool) (v : value) : bool :=
  match v with VArr l => forallb ok l | _ => false end.

Definition optional (ok : value -> bool) (v : value) : bool := nullish v || ok v.

Definition has_meta (p : value) : bool := present p && present (prop p "meta").

(** A raw fixture as section 3 describes it: [participants] is an array of
    team objects that carry a [meta]; [state], when given, holds a state
    string.  Neither a home nor an away participant is required. *)
Definition raw_fixture (f : value) : bool :=
  present f && array_of has_meta (prop f "participants")
  && optional is_string (state_state f).

(** A raw match: a raw fixture whose [scores] is an array of entries and
    whose [periods], when given, is an array of entries. *)
Definition raw_match (m : value) : bool :=
  raw_fixture m && array_of present (prop m "scores")
  && optional (array_of present) (prop m "periods").

Definition at_location (loc : string) (p : value) : bool :=
  strict_eq (prop (prop p "meta") "location") (VStr loc).

(** Both teams are listed and the state string is given. *)
Definition complete (m : value) : bool :=
  match prop m "participants" with
  | VArr ps => existsb (at_location "home") ps && existsb (at_location "away") ps
  | _ => false
  end && is_string (state_state m).

(** The record both match shapers build, from the values they found. *)
Definition shaped (m localTeam visitorTeam localTeamScore visitorTeamScore
                   round status minute : value) : value :=
  VObj [("id", prop m "id");
        ("league_id", prop m "league_id");
        ("round", round);
        ("localteam_id", opt_member localTeam "id");
        ("visitorteam_id", opt_member visitorTeam "id");
        ("starting_at", prop m "starting_at");
        ("status", status);
        ("minute", minute);
        ("live", VBool (strict_eq (state_state m) (VStr "live")));
        ("scores",
         VArr [VObj [("team_id", opt_member localTeam "id");
                     ("score", or_else (opt_member localTeamScore "goals") (VNum 0))];
               VObj [("team_id", opt_member visitorTeam "id");
                     ("score", or_else (opt_member visitorTeamScore "goals") (VNum 0))]]);
        ("participants", prop m "participants")].

(** The record both fixture shapers build. *)
Definition shaped_fixture (f localTeam visitorTeam status : value) : value :=
  VObj [("id", prop f "id");
        ("league_id", prop f "league_id");
        ("round", prop f "round");
        ("starting_at", prop f "starting_at");
        ("status", status);
        ("live", VBool false);
        ("participants", prop f "participants");
        ("scores",
         VArr [VObj [("participant_id", opt_member localTeam "id"); ("goals", VNum 0)];
               VObj [("participant_id", opt_member visitorTeam "id"); ("goals", VNum 0)]])].

Definition is_2hg_period (p : value) : bool :=
  strict_eq (prop p "type") (VStr "2hg").

(** The minute of a match: the [minutes] of the first period of type
    [2hg]; [undefined] when [periods] is missing or holds no such period. *)
Inductive minute_is (m : value) : value -> Prop :=
| minute_no_periods :
    nullish (prop m "periods") = true -> minute_is m VUndefined
| minute_first (pre post : list value) (p : value) :
    prop m "periods" = VArr (pre ++ p :: post) ->
    Forall (fun q => is_2hg_period q = false) pre ->
    is_2hg_period p = true ->
    minute_is m (prop p "minutes")
| minute_no_2hg (ps : list value) :
    prop m "periods" = VArr ps ->
    Forall (fun q => is_2hg_period q = false) ps ->
    minute_is m VUndefined.

(** The two score rows of a shaped match, home first: each carries the id
    of the participant [find] picked for its side, which is also the
    record's [localteam_id] or [visitorteam_id]. *)
Definition home_then_away (m out : value) : Prop :=
  exists localTeam visitorTeam score0 score1,
    team_at "home" m = Ok localTeam /\
    team_at "away" m = Ok visitorTeam /\
    prop out "localteam_id" = opt_member localTeam "id" /\
    prop out "visitorteam_id" = opt_member visitorTeam "id" /\
    prop out "scores" =
      VArr [VObj [("team_id", prop out "localteam_id"); ("score", score0)];
            VObj [("team_id", prop out "visitorteam_id"); ("score", score1)]].

(** The two rows of a shaped fixture, home first, each with no goals. *)
Definition fixture_rows (f out : value) : Prop :=
  exists localTeam visitorTeam,
    team_at "home" f = Ok localTeam /\
    team_at "away" f = Ok visitorTeam /\
    prop out "scores" =
      VArr [VObj [("participant_id", opt_member localTeam "id"); ("goals", VNum 0)];
            VObj [("participant_id", opt_member visitorTeam "id"); ("goals", VNum 0)]].

(** The shaped form of the match of section 8. *)
Definition live_shaped (id league_id starting_at round : value) : value :=
  shaped (live_match id league_id starting_at round)
    (participant 10 "home") (participant 20 "away") (score 10 2) (score 20 1)
    (or_else (opt_member round "name") (VStr "N/A")) (VStr "LIVE") VUndefined.

(** A match whose state string is empty and one whose round name is empty. *)
Definition blank_state_match : value :=
  VObj [("id", VNum 7);
        ("participants", VArr [participant 10 "home"; participant 20 "away"]);
        ("scores", VArr []);
        ("state", VObj [("state", VStr "")])].

Definition blank_round_match : value :=
  VObj [("id", VNum 8);
        ("round", VObj [("name", VStr "")]);
        ("participants", VArr [participant 10 "home"; participant 20 "away"]);
        ("scores", VArr []);
        ("periods", VArr [VObj [("type", VStr "1hg"); ("minutes", VNum 45)];
                          VObj [("type", VStr "2hg"); ("minutes", VNum 63)]]);
        ("state", VObj [("state", VStr "live")])].

(** The fixture of section 8: the same participants, state [NS]. *)
Definition sample_fixture (round : value) : value :=
  VObj [("id", VNum 9);
        ("round", round);
        ("participants", VArr [participant 10 "home"; participant 20 "away"]);
        ("state", VObj [("state", VStr "NS")])].

Definition token : value := VStr "secret".

(** An upstream body with one live match, and one without [data]. *)
Definition live_body : value :=
  VObj [("data", VArr [live_match (VNum 1) (VNum 2) VNull VNull])].

Definition body_without_data : value :=
  VObj [("message", VStr "Too many requests")].

(** A match that lists only its away participant. *)
Definition away_only_match : value :=
  VObj [("id", VNum 5);
        ("participants", VArr [participant 20 "away"]);
        ("scores", VArr [score 20 1]);
        ("state", VObj [("state", VStr "live")])].

Definition mixed_body : value :=
  VObj [("data", VArr [live_match (VNum 1) (VNum 2) VNull VNull; away_only_match])].

(** The events between a [set] of [key] and a later [get]: no task writes
    [key] again, and time does not run backwards. *)
Definition quiet (key : string) (events : list Cached.event) : Prop :=
  Forall (fun e =>
            match e with
            | Cached.Refresh t _ => Cached.key_of t <> key
            | Cached.Tick seconds => 0 <= seconds
            | Cached.Sweep => True
            end) events.

(** A world in which [key] was set to [v] at time [since] and not written
    since: its entry is still stored, or the sweep has evicted it after its
    ttl of 900 seconds had passed. *)
Definition set_at (key : string) (v : value) (since : Z) (w : Cached.world) : Prop :=
  NodeCache.stdTTL (Cached.appCache w) = 900 /\
  since <= Cached.now w /\
  (NodeCache.data (Cached.appCache w) !! key = Some (NodeCache.Entry v since 900) \/
   (NodeCache.data (Cached.appCache w) !! key = None /\ 900 < Cached.now w - since)).

(** A schedule of [src/server.js] in which task [t] does not run. *)
Definition without (t : task) (schedule : list (task * outcome)) : Prop :=
  Forall (fun run => fst run <> t) schedule.

(** The request a task sends: its path under [BASE_URL], the token, and
    the relations it asks to include. *)
Definition request_of (API_TOKEN : value) (t : task) : request :=
  match t with
  | Leagues => Request (BASE_URL +:+ "/leagues") [("api_token", API_TOKEN)]
  | Teams => Request (BASE_URL +:+ "/teams") [("api_token", API_TOKEN)]
  | LiveScores =>
      Request (BASE_URL +:+ "/livescores")
        [("api_token", API_TOKEN); ("include", VStr "scores;participants;state;league")]
  | Fixtures =>
      Request (BASE_URL +:+ "/fixtures")
        [("api_token", API_TOKEN); ("include", VStr "participants;league;round;state")]
  end.

(** The tasks that run in a list of events, in order. *)
Fixpoint tasks_of (events : list Cached.event) : list task :=
  match events with
  | [] => []
  | Cached.Refresh t _ :: rest => t :: tasks_of rest
  | _ :: rest => tasks_of rest
  end.

(** The goals a score row shows for a team: those of the first score entry
    whose [participant_id] is strictly equal to the team's id, and 0 when
    there is no such entry or its goals are falsy. *)
Fixpoint goals_of (team_id : value) (scores : list value) : value :=
  match scores with
  | [] => VNum 0
  | s :: rest =>
      if strict_eq (prop s "participant_id") team_id
      then or_else (prop s "goals") (VNum 0)
      else goals_of team_id rest
  end.

Definition is_array (v : value) : bool :=
  match v with VArr _ => true | _ => false end.

(** The fields a match shaper copies. *)
Definition copied (m out : value) : Prop :=
  prop out "id" = prop m "id" /\
  prop out "league_id" = prop m "league_id" /\
  prop out "starting_at" = prop m "starting_at" /\
  prop out "participants" = prop m "participants".

(** A match without a home participant whose first score entry names no
    participant. *)
Definition orphan_score_match : value :=
  VObj [("id", VNum 6);
        ("participants", VArr [participant 20 "away"]);
        ("scores", VArr [VObj [("goals", VNum 4)]; score 20 1]);
        ("state", VObj [("state", VStr "live")])].

(** A body whose second row is [null]. *)
Definition broken_body : value :=
  VObj [("data", VArr [VObj [("id", VNum 8); ("name", VStr "Cup")]; VNull])].

(** What [summaries_all_or_nothing] says of one run of a task. *)
Definition all_or_nothing (t : task) (reply : outcome) (w w' : ServerJs.world) : Prop :=
  (exists body rows ys label,
     reply = Resolved body /\ prop body "data" = VArr rows /\
     Forall2 (fun x y => nullish x = false /\ summary x = Ok y) rows ys /\
     ServerJs.cache t w' = VArr ys /\
     ServerJs.console w' = (ServerJs.console w ++ [Line Log [VStr label]])%list) \/
  ((forall t', ServerJs.cache t' w' = ServerJs.cache t' w) /\
   exists label err,
     ServerJs.console w'
     = (ServerJs.console w ++ [Line Error [VStr label; error_text err]])%list).

(** The first entry of a participants list that is listed at a location,
    and [undefined] when none is. *)
Fixpoint first_at (loc : string) (ps : list value) : value :=
  match ps with
  | [] => VUndefined
  | p :: rest => if at_location loc p then p else first_at loc rest
  end.

(** The two score rows of a shaped match against its participants: the
    first row carries the id of the first participant listed at [home],
    the second that of the first participant listed at [away], and these
    are the record's [localteam_id] and [visitorteam_id]. *)
Definition home_row_first (m out : value) : Prop :=
  exists ps score0 score1,
    prop m "participants" = VArr ps /\
    prop out "localteam_id" = opt_member (first_at "home" ps) "id" /\
    prop out "visitorteam_id" = opt_member (first_at "away" ps) "id" /\
    prop out "scores" =
      VArr [VObj [("team_id", prop out "localteam_id"); ("score", score0)];
            VObj [("team_id", prop out "visitorteam_id"); ("score", score1)]].

(** The two rows of a shaped fixture against its participants. *)
Definition fixture_home_row_first (f out : value) : Prop :=
  exists ps,
    prop f "participants" = VArr ps /\
    prop out "scores" =
      VArr [VObj [("participant_id", opt_member (first_at "home" ps) "id");
                  ("goals", VNum 0)];
            VObj [("participant_id", opt_member (first_at "away" ps) "id");
                  ("goals", VNum 0)]].

(** ** Evaluation lemmas *)

Lemma bind_Ok {A B : Type} (r : result A) (k : A -> result B) (b : B) :
  bind r k = Ok b -> exists a, r = Ok a /\ k a = Ok b.
Proof. destruct r as [a|e]; simpl; [eauto | discriminate]. Qed.

Lemma member_Ok (v : value) (k : string) (x : value) :
  member v k = Ok x -> nullish v = false /\ x = prop v k.
Proof. unfold member. destruct (nullish v); [discriminate | intros [= <-]; auto]. Qed.

Lemma member_prop (v : value) (k : string) :
  nullish v = false -> member v k = Ok (prop v k).
Proof. unfold member. intros ->. reflexivity. Qed.

Lemma opt_member_prop (v : value) (k : string) :
  nullish v = false -> opt_member v k = prop v k.
Proof. unfold opt_member. intros ->. reflexivity. Qed.

Lemma opt_member_is_prop (v : value) (k : string) : opt_member v k = prop v k.
Proof. unfold opt_member. destruct v; reflexivity. Qed.

Lemma truthy_not_nullish (v : value) : truthy v = true -> nullish v = false.
Proof. destruct v; simpl; congruence. Qed.

(** Splits a hypothesis [x <- e ;; k = Ok out] into its steps. *)
Ltac unbind H :=
  let a := fresh "a" in
  let Ha := fresh "E" in
  apply bind_Ok in H; destruct H as (a & Ha & H).

Ltac unbind_all H := repeat unbind H.

Ltac use_member :=
  repeat match goal with
  | E : member _ _ = Ok _ |- _ =>
      let N := fresh "N" in apply member_Ok in E; destruct E as [N ->]
  end.

Lemma array_find_total (cb : value -> result value) (l : list value) :
  answers cb l -> exists x, array_find cb l = Ok x.
Proof.
  induction 1 as [|x l [b Hb] _ IH]; simpl; [eauto|].
  rewrite Hb; simpl. destruct (truthy b); eauto.
Qed.

Lemma array_find_found (cb : value -> result value) (l : list value) (x : value) :
  array_find cb l = Ok x -> found cb l x.
Proof.
  revert x. induction l as [|y l IH]; simpl; intros x H.
  - injection H as <-. apply found_none. constructor.
  - unbind H. destruct (truthy a) eqn:T.
    + injection H as <-. eapply (found_first _ _ [] l); eauto.
    + assert (Hy : rejected cb y) by (exists a; auto).
      destruct (IH _ H) as [pre post x b -> Hpre Hx Hb | Hall].
      * eapply (found_first _ _ (y :: pre) post); eauto.
      * apply found_none. constructor; auto.
Qed.

Lemma found_unique (cb : value -> result value) (l : list value) (x : value) :
  found cb l x -> array_find cb l = Ok x.
Proof.
  intros [pre post y b -> Hpre Hy Hb | Hall].
  - induction Hpre as [|z pre (c & Hc & Tc) _ IH]; simpl.
    + rewrite Hy; simpl. rewrite Hb. reflexivity.
    + rewrite Hc; simpl. rewrite Tc. exact IH.
  - induction Hall as [|z l (c & Hc & Tc) _ IH]; simpl; [reflexivity|].
    rewrite Hc; simpl. rewrite Tc. exact IH.
Qed.

Lemma array_map_Forall2 (cb : value -> result value) (l ys : list value) :
  array_map cb l = Ok ys -> Forall2 (fun x y => cb x = Ok y) l ys.
Proof.
  revert ys. induction l as [|x l IH]; simpl; intros ys H.
  - injection H as <-. constructor.
  - unbind_all H. injection H as <-. constructor; auto.
Qed.

Lemma array_map_total (cb : value -> result value) (l : list value) :
  answers cb l -> exists ys, array_map cb l = Ok ys /\ List.length ys = List.length l.
Proof.
  induction 1 as [|x l [b Hb] _ (ys & IH & Hlen)]; simpl; [eauto|].
  rewrite Hb, IH; simpl. exists (b :: ys). simpl. auto.
Qed.

Lemma call_map_Ok (callee : string) (v : value) (cb : value -> result value)
    (out : value) :
  call_map callee v cb = Ok out ->
  exists l ys, v = VArr l /\ out = VArr ys /\ Forall2 (fun x y => cb x = Ok y) l ys.
Proof.
  destruct v; simpl; try discriminate. intros H. unbind H. injection H as <-.
  exists elems, a. auto using array_map_Forall2.
Qed.

Lemma call_find_Ok (callee : string) (v : value) (cb : value -> result value)
    (x : value) :
  call_find callee v cb = Ok x -> exists l, v = VArr l /\ found cb l x.
Proof.
  destruct v; simpl; try discriminate. intros H.
  exists elems. auto using array_find_found.
Qed.

Lemma call_find_callee (c c' : string) (v : value) (cb : value -> result value)
    (x : value) :
  call_find c v cb = Ok x -> call_find c' v cb = Ok x.
Proof. destruct v; simpl; try discriminate; auto. Qed.

(** A fixture shaper's [find] read as [team_at]: the two differ in the text
    of an error only. *)
Ltac as_team_at :=
  repeat match goal with
  | E : call_find "fixture.participants.find" _ _ = Ok _ |- _ =>
      apply (call_find_callee _ "match.participants.find") in E
  end.

Lemma upper_nonempty (s : string) : s <> "" -> toUpperCase s <> "".
Proof. destruct s; simpl; [congruence | discriminate]. Qed.

Lemma truthy_VStr (s : string) : s <> "" -> truthy (VStr s) = true.
Proof.
  intros H. simpl. destruct (String.eqb_spec s ""); [contradiction | reflexivity].
Qed.

(** ** What a shaper that returns has computed *)

Lemma Part0_shapeMatch_inv (m out : value) :
  Part0.shapeMatch m = Ok out ->
  exists localTeam visitorTeam localTeamScore visitorTeamScore round status minute,
    nullish m = false /\
    team_at "home" m = Ok localTeam /\
    team_at "away" m = Ok visitorTeam /\
    round_name m = Ok round /\
    Part0.status_of "match" m = Ok status /\
    minute_of m = Ok minute /\
    out = shaped m localTeam visitorTeam localTeamScore visitorTeamScore
            round status minute.
Proof.
  intros H. unfold Part0.shapeMatch in H. unbind_all H. use_member.
  injection H as <-.
  repeat eexists; eauto.
Qed.

Lemma ServerJs_shapeMatch_inv (m out : value) :
  ServerJs.shapeMatch m = Ok out ->
  exists localTeam visitorTeam localTeamScore visitorTeamScore round status minute,
    nullish m = false /\
    team_at "home" m = Ok localTeam /\
    team_at "away" m = Ok visitorTeam /\
    nullish localTeam = false /\
    nullish visitorTeam = false /\
    round_name m = Ok round /\
    call_toUpperCase "match.state.state.toUpperCase" (state_state m) = Ok status /\
    minute_of m = Ok minute /\
    out = shaped m localTeam visitorTeam localTeamScore visitorTeamScore
            round status minute.
Proof.
  intros H. unfold ServerJs.shapeMatch in H. unbind_all H. use_member.
  injection H as <-.
  do 7 eexists. unfold shaped, state_state.
  repeat split; rewrite ?opt_member_is_prop; eauto.
Qed.

Lemma Part0_shapeFixture_inv (f out : value) :
  Part0.shapeFixture f = Ok out ->
  exists localTeam visitorTeam status,
    nullish f = false /\
    team_at "home" f = Ok localTeam /\
    team_at "away" f = Ok visitorTeam /\
    Part0.status_of "fixture" f = Ok status /\
    out = shaped_fixture f localTeam visitorTeam status.
Proof.
  intros H. unfold Part0.shapeFixture in H. unbind_all H. use_member.
  injection H as <-. as_team_at.
  repeat eexists; eauto.
Qed.

Lemma ServerJs_shapeFixture_inv (f out : value) :
  ServerJs.shapeFixture f = Ok out ->
  exists localTeam visitorTeam status,
    nullish f = false /\
    team_at "home" f = Ok localTeam /\
    team_at "away" f = Ok visitorTeam /\
    nullish localTeam = false /\
    nullish visitorTeam = false /\
    call_toUpperCase "fixture.state.state.toUpperCase" (state_state f) = Ok status /\
    out = shaped_fixture f localTeam visitorTeam status.
Proof.
  intros H. unfold ServerJs.shapeFixture in H. unbind_all H. use_member.
  injection H as <-. as_team_at.
  do 3 eexists. unfold shaped_fixture, state_state.
  repeat split; rewrite ?opt_member_is_prop; eauto.
Qed.

(** ** The derived fields *)

Lemma round_name_Ok (m r : value) :
  round_name m = Ok r ->
  r = or_else (opt_member (prop m "round") "name") (VStr "N/A").
Proof.
  intros H. unfold round_name in H. unbind_all H. use_member. congruence.
Qed.

Lemma is_2hg_Ok (p b : value) :
  is_2hg p = Ok b -> truthy b = is_2hg_period p.
Proof.
  intros H. unfold is_2hg in H. unbind_all H. use_member.
  injection H as <-. reflexivity.
Qed.

Lemma rejected_is_2hg (l : list value) :
  Forall (rejected is_2hg) l -> Forall (fun q => is_2hg_period q = false) l.
Proof.
  intros H. eapply Forall_impl; [exact H|].
  intros q (c & Hc & Tc). apply is_2hg_Ok in Hc. congruence.
Qed.

Lemma minute_of_Ok (m x : value) : minute_of m = Ok x -> minute_is m x.
Proof.
  intros H. unfold minute_of in H. unbind_all H. use_member.
  injection H as <-. unfold opt_call_find in E0.
  destruct (nullish (prop m "periods")) eqn:P.
  - injection E0 as <-. apply minute_no_periods. exact P.
  - apply call_find_Ok in E0. destruct E0 as (l & Hl & F).
    destruct F as [pre post p b -> Hpre Hp Tb | Hall].
    + rewrite opt_member_is_prop. eapply minute_first; eauto.
      * apply rejected_is_2hg, Hpre.
      * apply is_2hg_Ok in Hp. congruence.
    + eapply minute_no_2hg; eauto. apply rejected_is_2hg, Hall.
Qed.

Lemma status_of_Ok (record : string) (m s : value) :
  Part0.status_of record m = Ok s ->
  (forall str, state_state m = VStr str -> str <> "" -> s = VStr (toUpperCase str)) /\
  (nullish (state_state m) = true \/ state_state m = VStr "" -> s = VStr "N/A").
Proof.
  intros H. unfold Part0.status_of in H. unbind_all H. use_member.
  injection H as <-. fold (state_state m) in E0.
  unfold opt_call_toUpperCase in E0. split.
  - intros str Hs Hne. rewrite Hs in E0. simpl in E0. injection E0 as <-.
    unfold or_else. rewrite truthy_VStr; [reflexivity | apply upper_nonempty, Hne].
  - intros [Hn | Hs].
    + rewrite Hn in E0. injection E0 as <-. reflexivity.
    + rewrite Hs in E0. simpl in E0. injection E0 as <-. reflexivity.
Qed.

Lemma call_toUpperCase_Ok (callee : string) (v s : value) :
  call_toUpperCase callee v = Ok s -> exists str, v = VStr str /\ s = VStr (toUpperCase str).
Proof. destruct v; simpl; try discriminate. intros [= <-]. eauto. Qed.

Lemma shaped_home_then_away (m lt vt ls vs r st mi : value) :
  team_at "home" m = Ok lt -> team_at "away" m = Ok vt ->
  home_then_away m (shaped m lt vt ls vs r st mi).
Proof.
  intros Hh Ha. exists lt, vt. do 2 eexists. repeat split; eauto.
Qed.

Lemma shaped_fixture_rows (f lt vt st : value) :
  team_at "home" f = Ok lt -> team_at "away" f = Ok vt ->
  fixture_rows f (shaped_fixture f lt vt st).
Proof. intros Hh Ha. exists lt, vt. repeat split; eauto. Qed.

Lemma Part0_match_rows (m out : value) :
  Part0.shapeMatch m = Ok out -> home_then_away m out.
Proof.
  intros H. apply Part0_shapeMatch_inv in H.
  destruct H as (lt & vt & ls & vs & r & st & mi & _ & Hh & Ha & _ & _ & _ & ->).
  apply shaped_home_then_away; assumption.
Qed.

Lemma ServerJs_match_rows (m out : value) :
  ServerJs.shapeMatch m = Ok out -> home_then_away m out.
Proof.
  intros H. apply ServerJs_shapeMatch_inv in H.
  destruct H as (lt & vt & ls & vs & r & st & mi & _ & Hh & Ha & _ & _ & _ & _ & _ & ->).
  apply shaped_home_then_away; assumption.
Qed.

Lemma Part0_fixture_rows (f out : value) :
  Part0.shapeFixture f = Ok out ->
  prop out "live" = VBool false /\ prop out "round" = prop f "round" /\ fixture_rows f out.
Proof.
  intros H. apply Part0_shapeFixture_inv in H.
  destruct H as (lt & vt & st & _ & Hh & Ha & _ & ->).
  repeat split. apply shaped_fixture_rows; assumption.
Qed.

Lemma ServerJs_fixture_rows (f out : value) :
  ServerJs.shapeFixture f = Ok out ->
  prop out "live" = VBool false /\ prop out "round" = prop f "round" /\ fixture_rows f out.
Proof.
  intros H. apply ServerJs_shapeFixture_inv in H.
  destruct H as (lt & vt & st & _ & Hh & Ha & _ & _ & _ & ->).
  repeat split. apply shaped_fixture_rows; assumption.
Qed.

(** ** Shaping: the statements of the specification *)

(** C6. The match of section 8 (home participant 10, away participant 20,
    scores 2 and 1, state [live]) is shaped by every listing into the same
    record, whose status is ["LIVE"], whose [live] is true and whose scores
    are the rows [(10, 2)] and [(20, 1)], whatever its other fields hold. *)
Theorem live_match_shaped (id league_id starting_at round : value) :
  let m := live_match id league_id starting_at round in
  let out := live_shaped id league_id starting_at round in
  ServerJs.shapeMatch m = Ok out /\
  Part0.shapeMatch m = Ok out /\
  Part1.shapeMatch m = Ok out /\
  prop out "status" = VStr "LIVE" /\
  prop out "live" = VBool true /\
  prop out "scores" =
    VArr [VObj [("team_id", VNum 10); ("score", VNum 2)];
          VObj [("team_id", VNum 20); ("score", VNum 1)]].
Proof. repeat split; reflexivity. Qed.

(** C4, as the code has it. When a shaper returns, the status is the
    upper-cased [state.state] whenever that is a non-empty string; in the
    listing that guards the chain ([state?.state?.toUpperCase() || "N/A"])
    the status is ["N/A"] when [state] or [state.state] is null or undefined
    and also when [state.state] is the empty string. *)
Theorem status_upper_or_NA (m out : value) :
  (Part0.shapeMatch m = Ok out \/ ServerJs.shapeMatch m = Ok out
   \/ Part1.shapeMatch m = Ok out ->
   forall s, state_state m = VStr s -> s <> "" ->
             prop out "status" = VStr (toUpperCase s)) /\
  (Part0.shapeMatch m = Ok out ->
   nullish (prop m "state") = true \/ nullish (state_state m) = true
   \/ state_state m = VStr "" ->
   prop out "status" = VStr "N/A").
Proof.
  split.
  - intros [H | [H | H]] s Hs Hne.
    + apply Part0_shapeMatch_inv in H.
      destruct H as (lt & vt & ls & vs & r & st & mi & _ & _ & _ & _ & Hst & _ & ->).
      apply status_of_Ok in Hst. destruct Hst as [Hup _]. simpl. eauto.
    + apply ServerJs_shapeMatch_inv in H.
      destruct H as (lt & vt & ls & vs & r & st & mi & _ & _ & _ & _ & _ & _ & Hst & _ & ->).
      apply call_toUpperCase_Ok in Hst. destruct Hst as (str & Hstr & ->).
      simpl. congruence.
    + apply ServerJs_shapeMatch_inv in H.
      destruct H as (lt & vt & ls & vs & r & st & mi & _ & _ & _ & _ & _ & _ & Hst & _ & ->).
      apply call_toUpperCase_Ok in Hst. destruct Hst as (str & Hstr & ->).
      simpl. congruence.
  - intros H Habs. apply Part0_shapeMatch_inv in H.
    destruct H as (lt & vt & ls & vs & r & st & mi & _ & _ & _ & _ & Hst & _ & ->).
    apply status_of_Ok in Hst. destruct Hst as [_ Hna]. simpl. apply Hna.
    destruct Habs as [Hn | [Hn | Hs]]; auto.
    left. unfold state_state, opt_member. rewrite Hn. reflexivity.
Qed.

Lemma status_upper_or_NA_witness :
  prop (live_shaped (VNum 1) (VNum 2) VNull VNull) "status" = VStr (toUpperCase "live")
  /\ (exists out, Part0.shapeMatch blank_state_match = Ok out
                  /\ prop out "status" = VStr "N/A").
Proof.
  split.
  - apply (proj1 (status_upper_or_NA (live_match (VNum 1) (VNum 2) VNull VNull) _)).
    + left. reflexivity.
    + reflexivity.
    + discriminate.
  - eexists. split; [reflexivity|].
    apply (proj2 (status_upper_or_NA blank_state_match _)).
    + reflexivity.
    + right. right. reflexivity.
Defined.

(** C4, as stated, fails on an empty state string: [state.state] is present
    and its upper-cased value is the empty string, yet the status is
    ["N/A"]. *)
Lemma status_of_empty_state :
  exists out,
    Part0.shapeMatch blank_state_match = Ok out /\
    state_state blank_state_match = VStr "" /\
    prop out "status" = VStr "N/A" /\
    prop out "status" <> VStr (toUpperCase "").
Proof. eexists. repeat split; try reflexivity. discriminate. Qed.

(** C9, as the code has it. When a shaper returns, the round is the round's
    [name] when that value is truthy and ["N/A"] otherwise (no round, no
    name, or a falsy name such as the empty string); the minute is the
    [minutes] of the first period of type [2hg], and [undefined] when
    [periods] is missing or holds no such period. *)
Theorem round_and_minute (m out : value) :
  Part0.shapeMatch m = Ok out \/ ServerJs.shapeMatch m = Ok out
  \/ Part1.shapeMatch m = Ok out ->
  let name := opt_member (prop m "round") "name" in
  (truthy name = true -> prop out "round" = name) /\
  (truthy name = false -> prop out "round" = VStr "N/A") /\
  minute_is m (prop out "minute").
Proof.
  intros H name.
  assert (exists lt vt ls vs r st mi,
            round_name m = Ok r /\ minute_of m = Ok mi /\
            out = shaped m lt vt ls vs r st mi) as
    (lt & vt & ls & vs & r & st & mi & Hr & Hm & ->).
  { destruct H as [H | [H | H]].
    - apply Part0_shapeMatch_inv in H.
      destruct H as (lt & vt & ls & vs & r & st & mi & _ & _ & _ & Hr & _ & Hm & ->).
      do 7 eexists; eauto.
    - apply ServerJs_shapeMatch_inv in H.
      destruct H as (lt & vt & ls & vs & r & st & mi & _ & _ & _ & _ & _ & Hr & _ & Hm & ->).
      do 7 eexists; eauto.
    - apply ServerJs_shapeMatch_inv in H.
      destruct H as (lt & vt & ls & vs & r & st & mi & _ & _ & _ & _ & _ & Hr & _ & Hm & ->).
      do 7 eexists; eauto. }
  apply round_name_Ok in Hr. apply minute_of_Ok in Hm. simpl.
  subst r. fold name. unfold or_else.
  repeat split; try assumption; intros ->; reflexivity.
Qed.

Lemma round_and_minute_witness :
  exists out,
    Part0.shapeMatch blank_round_match = Ok out /\
    prop out "round" = VStr "N/A" /\
    minute_is blank_round_match (prop out "minute") /\
    prop out "minute" = VNum 63.
Proof.
  eexists. split; [reflexivity|].
  pose proof (round_and_minute blank_round_match _ (or_introl eq_refl)) as (_ & Hna & Hm).
  split; [apply Hna; reflexivity|]. split; [exact Hm | reflexivity].
Defined.

(** C9, as stated, fails on an empty round name: the [name] field is
    present, yet the round is ["N/A"] and not that name. *)
Lemma round_of_empty_name :
  exists out,
    Part0.shapeMatch blank_round_match = Ok out /\
    ServerJs.shapeMatch blank_round_match = Ok out /\
    prop (prop blank_round_match "round") "name" = VStr "" /\
    prop out "round" = VStr "N/A" /\
    prop out "round" <> prop (prop blank_round_match "round") "name".
Proof. eexists. repeat split; try reflexivity. discriminate. Qed.

Lemma shaped_list_inv (callee : string) (cached body : value)
    (cb : value -> result value) :
  (shapedData <- call_map callee cached cb ;; Ok (VObj [("data", shapedData)])) = Ok body ->
  exists ms outs,
    cached = VArr ms /\ body = VObj [("data", VArr outs)] /\
    Forall2 (fun m out => cb m = Ok out) ms outs.
Proof.
  intros H. unbind H. injection H as <-.
  apply call_map_Ok in E. destruct E as (ms & outs & -> & -> & F). eauto.
Qed.

Lemma find_located_first (loc : string) (ps : list value) (x : value) :
  array_find (located loc) ps = Ok x -> x = first_at loc ps.
Proof.
  revert x. induction ps as [|p ps IH]; simpl; intros x H.
  - injection H as <-. reflexivity.
  - unbind H. unfold located in E. unbind_all E. use_member. injection E as <-.
    simpl in H. fold (at_location loc p) in H.
    destruct (at_location loc p); [injection H as <-; reflexivity | apply IH, H].
Qed.

Lemma team_at_first (loc : string) (m x : value) :
  team_at loc m = Ok x ->
  exists ps, prop m "participants" = VArr ps /\ x = first_at loc ps.
Proof.
  unfold team_at. destruct (prop m "participants") as [| | | | |ps|]; simpl;
    try discriminate.
  intros H. exists ps. split; [reflexivity | apply find_located_first, H].
Qed.

Lemma rows_against_participants (m out : value) :
  home_then_away m out -> home_row_first m out.
Proof.
  intros (lt & vt & s0 & s1 & Hh & Ha & Hl & Hv & Hs).
  apply team_at_first in Hh. destruct Hh as (ps & Hps & ->).
  apply team_at_first in Ha. destruct Ha as (ps' & Hps' & ->).
  rewrite Hps in Hps'. injection Hps' as <-.
  exists ps, s0, s1. auto.
Qed.

Lemma fixture_rows_against_participants (f out : value) :
  fixture_rows f out -> fixture_home_row_first f out.
Proof.
  intros (lt & vt & Hh & Ha & Hs).
  apply team_at_first in Hh. destruct Hh as (ps & Hps & ->).
  apply team_at_first in Ha. destruct Ha as (ps' & Hps' & ->).
  rewrite Hps in Hps'. injection Hps' as <-.
  exists ps. auto.
Qed.

(** C10. Every record the live-scores route returns has exactly two score
    rows, the home participant's first: the first row's [team_id] is the
    record's [localteam_id] and is the id of the first participant whose
    [meta.location] is ["home"], the second row's is its [visitorteam_id]
    and is the id of the first participant whose [meta.location] is
    ["away"]. Every record the fixtures route returns has its two
    [participant_id] rows in the same order. *)
Theorem scores_home_then_away (body : value) :
  (forall w, ServerJs.getLiveScores w = Ok body ->
     exists ms outs,
       ServerJs.footballLiveScoresCache w = VArr ms /\
       body = VObj [("data", VArr outs)] /\ Forall2 home_row_first ms outs) /\
  (forall w, Part0.getLiveScores w = Ok body \/ Part1.getLiveScores w = Ok body ->
     exists ms outs,
       or_else (Cached.cache_get "liveScores" w) (VArr []) = VArr ms /\
       body = VObj [("data", VArr outs)] /\ Forall2 home_row_first ms outs) /\
  (forall w, ServerJs.getFixtures w = Ok body ->
     exists fs outs,
       ServerJs.footballFixturesCache w = VArr fs /\
       body = VObj [("data", VArr outs)] /\ Forall2 fixture_home_row_first fs outs) /\
  (forall w, Part0.getFixtures w = Ok body \/ Part1.getFixtures w = Ok body ->
     exists fs outs,
       or_else (Cached.cache_get "fixtures" w) (VArr []) = VArr fs /\
       body = VObj [("data", VArr outs)] /\ Forall2 fixture_home_row_first fs outs).
Proof.
  repeat split.
  - intros w H. apply shaped_list_inv in H. destruct H as (ms & outs & ? & ? & F).
    exists ms, outs. repeat split; auto.
    eapply Forall2_impl; [exact F|]. intros m out Hm.
    apply rows_against_participants, ServerJs_match_rows, Hm.
  - intros w [H | H]; apply shaped_list_inv in H;
      destruct H as (ms & outs & ? & ? & F); exists ms, outs; repeat split; auto;
      (eapply Forall2_impl; [exact F|]); intros m out Hm;
      apply rows_against_participants.
    + apply Part0_match_rows, Hm.
    + apply ServerJs_match_rows, Hm.
  - intros w H. apply shaped_list_inv in H. destruct H as (ms & outs & ? & ? & F).
    exists ms, outs. repeat split; auto.
    eapply Forall2_impl; [exact F|]. intros f out Hf.
    apply fixture_rows_against_participants, ServerJs_fixture_rows, Hf.
  - intros w [H | H]; apply shaped_list_inv in H;
      destruct H as (ms & outs & ? & ? & F); exists ms, outs; repeat split; auto;
      (eapply Forall2_impl; [exact F|]); intros f out Hf;
      apply fixture_rows_against_participants.
    + apply Part0_fixture_rows, Hf.
    + apply ServerJs_fixture_rows, Hf.
Qed.

Lemma scores_home_then_away_witness :
  let w := ServerJs.refresh token LiveScores (Resolved live_body) ServerJs.start in
  exists out score0 score1,
    ServerJs.getLiveScores w = Ok (VObj [("data", VArr [out])]) /\
    prop out "localteam_id" = VNum 10 /\
    prop out "visitorteam_id" = VNum 20 /\
    prop out "scores" =
      VArr [VObj [("team_id", VNum 10); ("score", score0)];
            VObj [("team_id", VNum 20); ("score", score1)]].
Proof.
  destruct (proj1 (scores_home_then_away _)
              (ServerJs.refresh token LiveScores (Resolved live_body) ServerJs.start)
              eq_refl) as (ms & outs & Hc & Hb & F).
  vm_compute in Hc. injection Hc as <-.
  vm_compute in Hb. injection Hb as <-.
  inversion F as [|? ? ? ? HP _]; subst.
  destruct HP as (ps & s0 & s1 & Hps & Hl & Hv & Hs).
  vm_compute in Hps. injection Hps as <-.
  eexists _, s0, s1. split; [reflexivity|].
  split; [exact Hl|]. split; [exact Hv | exact Hs].
Defined.

(** ** The refresh tasks *)

Lemma ServerJs_refresh_skipped (API_TOKEN : value) (t : task) (reply : outcome)
    (w : ServerJs.world) :
  truthy API_TOKEN = false ->
  ServerJs.sent (ServerJs.refresh API_TOKEN t reply w) = ServerJs.sent w /\
  forall t', ServerJs.cache t' (ServerJs.refresh API_TOKEN t reply w) = ServerJs.cache t' w.
Proof.
  intros T. destruct t; simpl;
    unfold ServerJs.fetchFootballLeagues, ServerJs.fetchFootballTeams,
      ServerJs.fetchFootballLiveScores, ServerJs.fetchFootballFixtures;
    rewrite T; simpl; split; try reflexivity; intros []; reflexivity.
Qed.

Lemma ServerJs_run_skipped (API_TOKEN : value) (schedule : list (task * outcome))
    (w : ServerJs.world) :
  truthy API_TOKEN = false ->
  ServerJs.sent (ServerJs.run API_TOKEN schedule w) = ServerJs.sent w /\
  forall t', ServerJs.cache t' (ServerJs.run API_TOKEN schedule w) = ServerJs.cache t' w.
Proof.
  intros T. revert w. induction schedule as [|[t reply] rest IH]; intros w; simpl.
  - auto.
  - destruct (IH (ServerJs.refresh API_TOKEN t reply w)) as [Hs Hc].
    destruct (ServerJs_refresh_skipped API_TOKEN t reply w T) as [Hs' Hc'].
    split; [congruence | intros t'; rewrite Hc; apply Hc'].
Qed.

Lemma ServerJs_empty_routes (w : ServerJs.world) :
  (forall t, ServerJs.cache t w = VArr []) ->
  forall t, ServerJs.route t w = Ok (VObj [("data", VArr [])]).
Proof.
  intros H t.
  pose proof (H Leagues) as HL. pose proof (H Teams) as HT.
  pose proof (H LiveScores) as HS. pose proof (H Fixtures) as HF. simpl in *.
  destruct t; simpl;
    unfold ServerJs.getLeagues, ServerJs.getTeams, ServerJs.getLiveScores,
      ServerJs.getFixtures; rewrite ?HL, ?HT, ?HS, ?HF; reflexivity.
Qed.

(** The store and the requests of a world of the two [part_000] listings. *)
Lemma Part0_refresh_skipped (API_TOKEN : value) (t : task) (reply : outcome)
    (w : Cached.world) :
  truthy API_TOKEN = false -> Part0.refresh API_TOKEN t reply w = w.
Proof.
  intros T. destruct t; simpl;
    unfold Part0.fetchFootballLeagues, Part0.fetchFootballTeams,
      Part0.fetchFootballLiveScores, Part0.fetchFootballFixtures;
    rewrite T; reflexivity.
Qed.

Lemma Part1_refresh_skipped (API_TOKEN : value) (t : task) (reply : outcome)
    (w : Cached.world) :
  truthy API_TOKEN = false -> Part1.refresh API_TOKEN t reply w = w.
Proof.
  intros T. destruct t; simpl;
    unfold Part1.fetchFootballLeagues, Part1.fetchFootballTeams,
      Part1.fetchFootballLiveScores, Part1.fetchFootballFixtures;
    rewrite T; reflexivity.
Qed.

Lemma sweep_empty (w : Cached.world) :
  NodeCache.data (Cached.appCache w) = ∅ ->
  NodeCache.data (Cached.appCache (Cached.sweep w)) = ∅.
Proof. intros H. simpl. rewrite H. apply map_filter_empty. Qed.

Lemma Part0_run_skipped (API_TOKEN : value) (events : list Cached.event)
    (w : Cached.world) :
  truthy API_TOKEN = false ->
  Cached.sent w = [] -> NodeCache.data (Cached.appCache w) = ∅ ->
  Cached.sent (Part0.run API_TOKEN events w) = [] /\
  NodeCache.data (Cached.appCache (Part0.run API_TOKEN events w)) = ∅.
Proof.
  intros T. revert w. induction events as [|e rest IH]; intros w Hs Hd; simpl.
  - auto.
  - apply IH; destruct e; simpl; rewrite ?Part0_refresh_skipped by exact T; auto.
    apply sweep_empty, Hd.
Qed.

Lemma Part1_run_skipped (API_TOKEN : value) (events : list Cached.event)
    (w : Cached.world) :
  truthy API_TOKEN = false ->
  Cached.sent w = [] -> NodeCache.data (Cached.appCache w) = ∅ ->
  Cached.sent (Part1.run API_TOKEN events w) = [] /\
  NodeCache.data (Cached.appCache (Part1.run API_TOKEN events w)) = ∅.
Proof.
  intros T. revert w. induction events as [|e rest IH]; intros w Hs Hd; simpl.
  - auto.
  - apply IH; destruct e; simpl; rewrite ?Part1_refresh_skipped by exact T; auto.
    apply sweep_empty, Hd.
Qed.

Lemma cache_get_empty (key : string) (w : Cached.world) :
  NodeCache.data (Cached.appCache w) = ∅ -> Cached.cache_get key w = VUndefined.
Proof.
  intros H. unfold Cached.cache_get, NodeCache.get. rewrite H, lookup_empty. reflexivity.
Qed.

Lemma Cached_empty_routes (w : Cached.world) (t : task) :
  NodeCache.data (Cached.appCache w) = ∅ ->
  Part0.route t w = Ok (VObj [("data", VArr [])]) /\
  Part1.route t w = Ok (VObj [("data", VArr [])]).
Proof.
  intros H. destruct t; simpl;
    unfold Part0.getLeagues, Part0.getTeams, Part0.getLiveScores, Part0.getFixtures,
      Part1.getLeagues, Part1.getTeams, Part1.getLiveScores, Part1.getFixtures;
    rewrite !cache_get_empty by exact H; split; reflexivity.
Qed.

(** C8. Without a token every task returns before it sends a request or
    writes a cache, whatever tasks have run and in whatever order, so every
    data route answers 200 with [{ data: [] }]. *)
Theorem absent_token_empty_lists (API_TOKEN : value) (t : task) :
  truthy API_TOKEN = false ->
  (forall schedule,
     let w := ServerJs.run API_TOKEN schedule ServerJs.start in
     ServerJs.sent w = [] /\
     ServerJs.cache t w = VArr [] /\
     respond (ServerJs.route t w) = Json (VObj [("data", VArr [])]) /\
     status_code (respond (ServerJs.route t w)) = 200) /\
  (forall events t0,
     let w := Part0.run API_TOKEN events (Cached.start t0) in
     Cached.sent w = [] /\
     NodeCache.data (Cached.appCache w) = ∅ /\
     respond (Part0.route t w) = Json (VObj [("data", VArr [])]) /\
     status_code (respond (Part0.route t w)) = 200) /\
  (forall events t0,
     let w := Part1.run API_TOKEN events (Cached.start t0) in
     Cached.sent w = [] /\
     NodeCache.data (Cached.appCache w) = ∅ /\
     respond (Part1.route t w) = Json (VObj [("data", VArr [])]) /\
     status_code (respond (Part1.route t w)) = 200).
Proof.
  intros T. repeat split.
  - apply ServerJs_run_skipped, T.
  - destruct (ServerJs_run_skipped API_TOKEN schedule ServerJs.start T) as [_ ->].
    destruct t; reflexivity.
  - rewrite ServerJs_empty_routes; [reflexivity|].
    intros t'. destruct (ServerJs_run_skipped API_TOKEN schedule ServerJs.start T) as [_ ->].
    destruct t'; reflexivity.
  - rewrite ServerJs_empty_routes; [reflexivity|].
    intros t'. destruct (ServerJs_run_skipped API_TOKEN schedule ServerJs.start T) as [_ ->].
    destruct t'; reflexivity.
  - apply Part0_run_skipped; auto.
  - apply Part0_run_skipped; auto.
  - destruct (Cached_empty_routes (Part0.run API_TOKEN events (Cached.start t0)) t) as [-> _];
      [apply Part0_run_skipped; auto | reflexivity].
  - destruct (Cached_empty_routes (Part0.run API_TOKEN events (Cached.start t0)) t) as [-> _];
      [apply Part0_run_skipped; auto | reflexivity].
  - apply Part1_run_skipped; auto.
  - apply Part1_run_skipped; auto.
  - destruct (Cached_empty_routes (Part1.run API_TOKEN events (Cached.start t0)) t) as [_ ->];
      [apply Part1_run_skipped; auto | reflexivity].
  - destruct (Cached_empty_routes (Part1.run API_TOKEN events (Cached.start t0)) t) as [_ ->];
      [apply Part1_run_skipped; auto | reflexivity].
Qed.

Lemma absent_token_empty_lists_witness :
  respond (ServerJs.route Teams
             (ServerJs.run VUndefined
                [(Leagues, Resolved live_body); (Teams, Resolved live_body);
                 (LiveScores, Resolved live_body); (Fixtures, Rejected (TypeError "x"))]
                ServerJs.start))
  = Json (VObj [("data", VArr [])])
  /\ respond (Part0.route Teams
                (Part0.run (VStr "")
                   [Cached.Refresh Teams (Resolved live_body); Cached.Tick 5; Cached.Sweep]
                   (Cached.start 0)))
     = Json (VObj [("data", VArr [])]).
Proof.
  split.
  - destruct (absent_token_empty_lists VUndefined Teams eq_refl) as (H & _ & _).
    apply (H [(Leagues, Resolved live_body); (Teams, Resolved live_body);
              (LiveScores, Resolved live_body); (Fixtures, Rejected (TypeError "x"))]).
  - destruct (absent_token_empty_lists (VStr "") Teams eq_refl) as (_ & H & _).
    apply (H [Cached.Refresh Teams (Resolved live_body); Cached.Tick 5; Cached.Sweep] 0).
Defined.

(** C5. A task whose request is rejected writes no cache: in
    [src/server.js] each of the four variables holds what it held before,
    and in the [part_000] listings the store is the store as it was, so
    [get] answers every key as before. *)
Theorem failed_fetch_keeps_cache (API_TOKEN : value) (t : task) (err : exn) :
  (forall w t',
     ServerJs.cache t' (ServerJs.refresh API_TOKEN t (Rejected err) w)
     = ServerJs.cache t' w) /\
  (forall w,
     Cached.appCache (Part0.refresh API_TOKEN t (Rejected err) w) = Cached.appCache w /\
     forall key,
       Cached.cache_get key (Part0.refresh API_TOKEN t (Rejected err) w)
       = Cached.cache_get key w) /\
  (forall w,
     Cached.appCache (Part1.refresh API_TOKEN t (Rejected err) w) = Cached.appCache w /\
     forall key,
       Cached.cache_get key (Part1.refresh API_TOKEN t (Rejected err) w)
       = Cached.cache_get key w).
Proof.
  repeat split; intros; destruct t; simpl;
    unfold ServerJs.fetchFootballLeagues, ServerJs.fetchFootballTeams,
      ServerJs.fetchFootballLiveScores, ServerJs.fetchFootballFixtures,
      Part0.fetchFootballLeagues, Part0.fetchFootballTeams,
      Part0.fetchFootballLiveScores, Part0.fetchFootballFixtures,
      Part1.fetchFootballLeagues, Part1.fetchFootballTeams,
      Part1.fetchFootballLiveScores, Part1.fetchFootballFixtures;
    destruct (truthy API_TOKEN); simpl; try reflexivity;
    match goal with t' : task |- _ => destruct t'; reflexivity end.
Qed.

(** What the [catch] block of a task prints. *)
Lemma rejected_is_logged (err : exn) (w : ServerJs.world) (c : Cached.world) :
  ServerJs.console (ServerJs.refresh token LiveScores (Rejected err) w)
  = (ServerJs.console w
     ++ [Line Error [VStr "Football LiveScores fetch error:"; error_text err]])%list
  /\ Cached.console (Part0.refresh token LiveScores (Rejected err) c)
     = (Cached.console c
        ++ [Line Error [VStr "Football LiveScores fetch error:"; error_text err]])%list.
Proof. split; reflexivity. Qed.

Ltac unfold_tasks :=
  unfold ServerJs.fetchFootballLeagues, ServerJs.fetchFootballTeams,
    ServerJs.fetchFootballLiveScores, ServerJs.fetchFootballFixtures,
    Part0.fetchFootballLeagues, Part0.fetchFootballTeams,
    Part0.fetchFootballLiveScores, Part0.fetchFootballFixtures,
    Part1.fetchFootballLeagues, Part1.fetchFootballTeams,
    Part1.fetchFootballLiveScores, Part1.fetchFootballFixtures.

(** C3, as the code has it. On a body without [data], the leagues and the
    teams task fail on [data.data.map]: they print the error and write no
    cache. The live-scores and the fixtures task read [data.data || []]:
    they store the empty list over whatever was cached and print their
    success line. *)
Theorem missing_data_field (API_TOKEN body : value) :
  truthy API_TOKEN = true -> nullish body = false -> prop body "data" = VUndefined ->
  (forall t, t = Leagues \/ t = Teams ->
     (forall w,
        (forall t', ServerJs.cache t' (ServerJs.refresh API_TOKEN t (Resolved body) w)
                    = ServerJs.cache t' w) /\
        exists label,
          ServerJs.console (ServerJs.refresh API_TOKEN t (Resolved body) w)
          = (ServerJs.console w
             ++ [Line Error [VStr label; error_text (cannot_read VUndefined "map")]])%list) /\
     (forall w,
        Cached.appCache (Part0.refresh API_TOKEN t (Resolved body) w) = Cached.appCache w /\
        Cached.appCache (Part1.refresh API_TOKEN t (Resolved body) w) = Cached.appCache w /\
        exists label,
          Cached.console (Part0.refresh API_TOKEN t (Resolved body) w)
          = (Cached.console w
             ++ [Line Error [VStr label; error_text (cannot_read VUndefined "map")]])%list)) /\
  (forall t, t = LiveScores \/ t = Fixtures ->
     (forall w,
        ServerJs.cache t (ServerJs.refresh API_TOKEN t (Resolved body) w) = VArr [] /\
        exists a,
          ServerJs.console (ServerJs.refresh API_TOKEN t (Resolved body) w)
          = (ServerJs.console w ++ [Line Log a])%list) /\
     (forall w,
        Cached.appCache (Part0.refresh API_TOKEN t (Resolved body) w)
        = NodeCache.set (Cached.now w) (Cached.key_of t) (VArr []) (Cached.appCache w) /\
        Cached.appCache (Part1.refresh API_TOKEN t (Resolved body) w)
        = NodeCache.set (Cached.now w) (Cached.key_of t) (VArr []) (Cached.appCache w) /\
        exists a,
          Cached.console (Part0.refresh API_TOKEN t (Resolved body) w)
          = (Cached.console w ++ [Line Log a])%list)).
Proof.
  intros T N D. split; intros t [-> | ->]; split; intros w; simpl; unfold_tasks;
    rewrite T; simpl; rewrite (member_prop body "data" N), D; simpl;
    repeat split; eauto; intros []; reflexivity.
Qed.

Lemma missing_data_field_witness :
  ServerJs.cache Leagues
    (ServerJs.refresh token Leagues (Resolved body_without_data)
       (ServerJs.refresh token Leagues (Resolved live_body) ServerJs.start))
  = ServerJs.cache Leagues (ServerJs.refresh token Leagues (Resolved live_body) ServerJs.start)
  /\ ServerJs.cache Fixtures
       (ServerJs.refresh token Fixtures (Resolved body_without_data)
          (ServerJs.refresh token Fixtures (Resolved live_body) ServerJs.start))
     = VArr [].
Proof.
  destruct (missing_data_field token body_without_data eq_refl eq_refl eq_refl)
    as [Hfail Hempty].
  split.
  - apply (Hfail Leagues (or_introl eq_refl)).
  - apply (Hempty Fixtures (or_intror eq_refl)).
Defined.

(** C3, as stated, fails for the live-scores task: after a refresh that
    cached one match, a body without [data] leaves the cache empty, in
    [src/server.js] and in the [part_000] listing alike, and the task prints
    its success line, not an error. *)
Lemma livescores_overwritten_without_data :
  let w := ServerJs.refresh token LiveScores (Resolved live_body) ServerJs.start in
  let w' := ServerJs.refresh token LiveScores (Resolved body_without_data) w in
  let c := Part0.refresh token LiveScores (Resolved live_body) (Cached.start 0) in
  let c' := Part0.refresh token LiveScores (Resolved body_without_data) c in
  prop body_without_data "data" = VUndefined /\
  ServerJs.footballLiveScoresCache w = VArr [live_match (VNum 1) (VNum 2) VNull VNull] /\
  ServerJs.footballLiveScoresCache w' = VArr [] /\
  ServerJs.footballLiveScoresCache w' <> ServerJs.footballLiveScoresCache w /\
  ServerJs.console w'
  = (ServerJs.console w
     ++ [Line Log [VStr "Successfully fetched "; VNum 0; VStr " live football matches."]])%list /\
  Cached.cache_get "liveScores" c = VArr [live_match (VNum 1) (VNum 2) VNull VNull] /\
  Cached.cache_get "liveScores" c' = VArr [] /\
  Cached.cache_get "liveScores" c' <> Cached.cache_get "liveScores" c.
Proof.
  repeat split; try (vm_compute; reflexivity); vm_compute; discriminate.
Qed.

(** ** The live-scores route on a match without its home participant *)

(** C1 on the listings. The cached list holds the match of section 8 and a
    match that lists only its away participant. The route of
    [src/server.js], and with it the one of [part_000], lines 310-331,
    reads [localTeam.id] on [undefined] and throws, so the whole response is
    lost (status 500); the route of [part_000], lines 122-148, reads
    [localTeam?.id] and answers 200 with both matches, the second with
    [localteam_id] and its row's [team_id] undefined. *)
Theorem livescores_without_home_participant :
  let w := ServerJs.refresh token LiveScores (Resolved mixed_body) ServerJs.start in
  let c := Part0.refresh token LiveScores (Resolved mixed_body) (Cached.start 0) in
  team_at "home" away_only_match = Ok VUndefined /\
  ServerJs.footballLiveScoresCache w
  = VArr [live_match (VNum 1) (VNum 2) VNull VNull; away_only_match] /\
  ServerJs.getLiveScores w = Throw (cannot_read VUndefined "id") /\
  status_code (respond (ServerJs.getLiveScores w)) = 500 /\
  Part1.getLiveScores (Part1.refresh token LiveScores (Resolved mixed_body) (Cached.start 0))
  = Throw (cannot_read VUndefined "id") /\
  status_code (respond (Part0.getLiveScores c)) = 200 /\
  exists out,
    Part0.getLiveScores c
    = Ok (VObj [("data", VArr [live_shaped (VNum 1) (VNum 2) VNull VNull; out])]) /\
    prop out "localteam_id" = VUndefined /\
    prop out "visitorteam_id" = VNum 20 /\
    prop out "scores" =
      VArr [VObj [("team_id", VUndefined); ("score", VNum 0)];
            VObj [("team_id", VNum 20); ("score", VNum 1)]].
Proof.
  repeat split; try (vm_compute; reflexivity).
  eexists. repeat split; vm_compute; reflexivity.
Qed.

(** ** The guarded shaper returns on every raw record *)

Lemma andb_true_split (a b : bool) : a && b = true -> a = true /\ b = true.
Proof. destruct a, b; simpl; auto. Qed.

Lemma present_nullish (v : value) : present v = true -> nullish v = false.
Proof. unfold present. destruct (nullish v); simpl; congruence. Qed.

Lemma located_Ok (loc : string) (p : value) :
  has_meta p = true -> located loc p = Ok (VBool (at_location loc p)).
Proof.
  intros H. apply andb_true_split in H. destruct H as [Hp Hm].
  apply present_nullish in Hp. apply present_nullish in Hm.
  unfold located. rewrite (member_prop p "meta" Hp). simpl.
  rewrite (member_prop _ "location" Hm). reflexivity.
Qed.

Lemma find_located (loc : string) (ps : list value) :
  forallb has_meta ps = true ->
  exists x, array_find (located loc) ps = Ok x /\
            (existsb (at_location loc) ps = false -> x = VUndefined) /\
            (existsb (at_location loc) ps = true -> nullish x = false).
Proof.
  induction ps as [|p ps IH]; simpl; intros H.
  - exists VUndefined. repeat split; auto; discriminate.
  - apply andb_true_split in H. destruct H as [Hp Hps].
    rewrite (located_Ok loc p Hp). simpl.
    destruct (at_location loc p) eqn:L; simpl.
    + exists p. repeat split; [discriminate|].
      intros _. apply andb_true_split in Hp. apply present_nullish, Hp.
    + apply IH, Hps.
Qed.

Lemma team_at_total (loc : string) (m : value) :
  array_of has_meta (prop m "participants") = true ->
  exists x, team_at loc m = Ok x.
Proof.
  unfold team_at, array_of. destruct (prop m "participants"); try discriminate.
  intros H. destruct (find_located loc elems H) as (x & Hx & _). simpl. eauto.
Qed.

Lemma find_score_total (callee : string) (ss : value) (cb : value -> bool) :
  array_of present ss = true ->
  exists x, call_find callee ss (fun s =>
              participant_id <- member s "participant_id" ;;
              Ok (VBool (cb participant_id))) = Ok x.
Proof.
  unfold array_of. destruct ss; try discriminate. intros H. simpl.
  apply array_find_total. unfold answers.
  induction elems as [|s ss IH]; simpl in *; constructor.
  - apply andb_true_split in H. destruct H as [Hs _]. apply present_nullish in Hs.
    rewrite (member_prop s "participant_id" Hs). simpl. eauto.
  - apply IH. apply andb_true_split in H. apply H.
Qed.

Lemma status_of_total (record : string) (m : value) :
  nullish m = false -> optional is_string (state_state m) = true ->
  exists s, Part0.status_of record m = Ok s.
Proof.
  intros N H. unfold Part0.status_of. rewrite (member_prop m "state" N). simpl.
  fold (state_state m). unfold optional in H. unfold opt_call_toUpperCase.
  destruct (nullish (state_state m)); simpl; [eauto|].
  destruct (state_state m); simpl in *; try discriminate. eauto.
Qed.

Lemma minute_of_total (m : value) :
  nullish m = false -> optional (array_of present) (prop m "periods") = true ->
  exists x, minute_of m = Ok x.
Proof.
  intros N H. unfold minute_of. rewrite (member_prop m "periods" N). simpl.
  unfold optional in H. unfold opt_call_find.
  destruct (nullish (prop m "periods")); simpl; [eauto|].
  destruct (prop m "periods"); simpl in *; try discriminate.
  assert (answers is_2hg elems) as A.
  { unfold answers. induction elems as [|p ps IH]; simpl in *; constructor.
    - apply andb_true_split in H. destruct H as [Hp _]. apply present_nullish in Hp.
      unfold is_2hg. rewrite (member_prop p "type" Hp). simpl. eauto.
    - apply IH. apply andb_true_split in H. apply H. }
  destruct (array_find_total _ _ A) as [x ->]. simpl. eauto.
Qed.

Lemma raw_fixture_parts (f : value) :
  raw_fixture f = true ->
  nullish f = false /\ array_of has_meta (prop f "participants") = true /\
  optional is_string (state_state f) = true.
Proof.
  unfold raw_fixture. intros H.
  apply andb_true_split in H. destruct H as [H H3].
  apply andb_true_split in H. destruct H as [H1 H2].
  auto using present_nullish.
Qed.

Lemma Part0_shapeFixture_total (f : value) :
  raw_fixture f = true -> exists out, Part0.shapeFixture f = Ok out.
Proof.
  intros H. apply raw_fixture_parts in H. destruct H as (N & P & S).
  destruct (team_at_total "home" f P) as [lt Hlt].
  destruct (team_at_total "away" f P) as [vt Hvt].
  destruct (status_of_total "fixture" f N S) as [st Hst].
  unfold team_at in *.
  apply (call_find_callee _ "fixture.participants.find") in Hlt, Hvt.
  unfold Part0.shapeFixture.
  rewrite !(member_prop f _ N). simpl. rewrite Hlt. simpl. rewrite Hvt. simpl.
  rewrite Hst. simpl. eauto.
Qed.

Lemma Part0_shapeMatch_total (m : value) :
  raw_match m = true -> exists out, Part0.shapeMatch m = Ok out.
Proof.
  unfold raw_match. intros H.
  apply andb_true_split in H. destruct H as [H Hper].
  apply andb_true_split in H. destruct H as [H Hsc].
  apply raw_fixture_parts in H. destruct H as (N & P & S).
  destruct (team_at_total "home" m P) as [lt Hlt].
  destruct (team_at_total "away" m P) as [vt Hvt].
  destruct (find_score_total "match.scores.find" _
              (fun pid => strict_eq pid (opt_member lt "id")) Hsc) as [ls Hls].
  destruct (find_score_total "match.scores.find" _
              (fun pid => strict_eq pid (opt_member vt "id")) Hsc) as [vs Hvs].
  destruct (status_of_total "match" m N S) as [st Hst].
  destruct (minute_of_total m N Hper) as [mi Hmi].
  unfold team_at in *. unfold Part0.shapeMatch, round_name.
  rewrite !(member_prop m _ N). simpl. rewrite Hlt. simpl. rewrite Hvt. simpl.
  rewrite Hls. simpl. rewrite Hvs. simpl. rewrite Hst. simpl. rewrite Hmi. simpl.
  eauto.
Qed.

Lemma missing_team_undefined (loc : string) (m : value) :
  array_of has_meta (prop m "participants") = true ->
  array_of (fun p => negb (at_location loc p)) (prop m "participants") = true ->
  team_at loc m = Ok VUndefined.
Proof.
  unfold team_at, array_of. destruct (prop m "participants"); try discriminate.
  intros H Hno. destruct (find_located loc elems H) as (x & Hx & Hu & _).
  simpl. rewrite Hx. f_equal. apply Hu.
  clear -Hno. induction elems as [|p ps IH]; simpl in *; [reflexivity|].
  apply andb_true_split in Hno. destruct Hno as [Hp Hps].
  destruct (at_location loc p); simpl in *; [discriminate | auto].
Qed.

(** The route of [part_000], lines 122-148, answers every cached list of
    raw matches, one record per match, whether or not a match lists its
    home and its away participant; the id fields of a side that is not
    listed are [undefined]. *)
Theorem guarded_route_never_fails (w : Cached.world) (ms : list value) :
  or_else (Cached.cache_get "liveScores" w) (VArr []) = VArr ms ->
  forallb raw_match ms = true ->
  exists outs,
    respond (Part0.getLiveScores w) = Json (VObj [("data", VArr outs)]) /\
    Forall2 (fun m out =>
               home_then_away m out /\
               (array_of (fun p => negb (at_location "home" p)) (prop m "participants") = true ->
                prop out "localteam_id" = VUndefined) /\
               (array_of (fun p => negb (at_location "away" p)) (prop m "participants") = true ->
                prop out "visitorteam_id" = VUndefined)) ms outs.
Proof.
  intros Hc Hraw. unfold Part0.getLiveScores. rewrite Hc. simpl.
  assert (exists outs, array_map Part0.shapeMatch ms = Ok outs) as [outs Hmap].
  { destruct (array_map_total Part0.shapeMatch ms) as (outs & Ho & _); eauto.
    unfold answers. clear Hc. induction ms as [|m ms IH]; simpl in *; constructor.
    - apply andb_true_split in Hraw. apply Part0_shapeMatch_total, Hraw.
    - apply IH. apply andb_true_split in Hraw. apply Hraw. }
  rewrite Hmap. simpl. exists outs. split; [reflexivity|].
  apply array_map_Forall2 in Hmap.
  assert (Forall (fun m => raw_match m = true) ms) as Hall.
  { clear -Hraw. induction ms as [|m ms IH]; simpl in *; constructor;
      apply andb_true_split in Hraw; destruct Hraw; auto. }
  clear Hraw Hc. induction Hmap as [|m out ms outs Hm _ IH]; constructor.
  - inversion Hall as [|? ? Hr _]; subst.
    pose proof (Part0_match_rows m out Hm) as Hrows.
    unfold raw_match in Hr.
    apply andb_true_split in Hr. destruct Hr as [Hr _].
    apply andb_true_split in Hr. destruct Hr as [Hr _].
    apply raw_fixture_parts in Hr. destruct Hr as (_ & P & _).
    split; [exact Hrows|].
    destruct Hrows as (lt & vt & s0 & s1 & Hh & Ha & Hl & Hv & _).
    split; intros Hno.
    + rewrite (missing_team_undefined "home" m P Hno) in Hh.
      injection Hh as <-. exact Hl.
    + rewrite (missing_team_undefined "away" m P Hno) in Ha.
      injection Ha as <-. exact Hv.
  - apply IH. inversion Hall; assumption.
Qed.

Lemma guarded_route_never_fails_witness :
  let c := Part0.refresh token LiveScores (Resolved mixed_body) (Cached.start 0) in
  exists outs,
    respond (Part0.getLiveScores c) = Json (VObj [("data", VArr outs)]) /\
    List.length outs = 2%nat.
Proof.
  destruct (guarded_route_never_fails
              (Part0.refresh token LiveScores (Resolved mixed_body) (Cached.start 0))
              [live_match (VNum 1) (VNum 2) VNull VNull; away_only_match]
              eq_refl eq_refl) as (outs & Hr & F).
  exists outs. split; [exact Hr|].
  apply Forall2_length in F. simpl in F. congruence.
Defined.

(** ** The fixture shapers *)

Lemma complete_parts (f : value) :
  nullish f = false -> array_of has_meta (prop f "participants") = true ->
  complete f = true ->
  exists localTeam visitorTeam s,
    team_at "home" f = Ok localTeam /\ nullish localTeam = false /\
    team_at "away" f = Ok visitorTeam /\ nullish visitorTeam = false /\
    nullish (prop f "state") = false /\ prop (prop f "state") "state" = VStr s.
Proof.
  intros N P C. unfold complete in C. apply andb_true_split in C.
  destruct C as [C S]. unfold team_at.
  destruct (prop f "participants") as [| | | | |ps|] eqn:Eps; try discriminate.
  simpl in P. apply andb_true_split in C. destruct C as [Ch Ca].
  destruct (find_located "home" ps P) as (lt & Hlt & _ & Nlt).
  destruct (find_located "away" ps P) as (vt & Hvt & _ & Nvt).
  unfold state_state, opt_member in S.
  destruct (nullish (prop f "state")) eqn:Ns; [discriminate|].
  destruct (prop (prop f "state") "state") eqn:Ess; try discriminate.
  exists lt, vt, s. simpl. auto 10.
Qed.

Lemma ServerJs_shapeFixture_total (f : value) :
  raw_fixture f = true -> complete f = true ->
  exists out, ServerJs.shapeFixture f = Ok out.
Proof.
  intros H C. apply raw_fixture_parts in H. destruct H as (N & P & _).
  destruct (complete_parts f N P C) as (lt & vt & s & Hlt & Nlt & Hvt & Nvt & Ns & Hs).
  unfold team_at in *.
  apply (call_find_callee _ "fixture.participants.find") in Hlt, Hvt.
  unfold ServerJs.shapeFixture.
  rewrite !(member_prop f _ N). simpl. rewrite Hlt. simpl. rewrite Hvt. simpl.
  rewrite (member_prop _ "state" Ns). simpl. rewrite Hs. simpl.
  rewrite (member_prop lt "id" Nlt), (member_prop vt "id" Nvt). simpl. eauto.
Qed.

(** C7. Every shaped fixture has [live] false, carries [round] exactly as
    the fixture has it, and pairs the ids of the home and of the away
    participant, in this order, each with [goals] 0. The guarded shaper
    returns such a record for every raw fixture, the unguarded ones for
    every raw fixture that lists both teams and gives its state string. *)
Theorem fixture_shape (f : value) :
  (forall out,
     Part0.shapeFixture f = Ok out \/ ServerJs.shapeFixture f = Ok out
     \/ Part1.shapeFixture f = Ok out ->
     prop out "live" = VBool false /\
     prop out "round" = prop f "round" /\
     fixture_rows f out) /\
  (raw_fixture f = true -> exists out, Part0.shapeFixture f = Ok out) /\
  (raw_fixture f = true -> complete f = true ->
   exists out, ServerJs.shapeFixture f = Ok out /\ Part1.shapeFixture f = Ok out).
Proof.
  split; [|split].
  - intros out [H | [H | H]].
    + apply Part0_fixture_rows, H.
    + apply ServerJs_fixture_rows, H.
    + apply ServerJs_fixture_rows, H.
  - apply Part0_shapeFixture_total.
  - intros R C. destruct (ServerJs_shapeFixture_total f R C) as [out H].
    exists out. split; exact H.
Qed.

Lemma fixture_shape_witness :
  let f := sample_fixture (VObj [("id", VNum 3); ("name", VStr "Round 3")]) in
  exists out,
    ServerJs.shapeFixture f = Ok out /\
    Part0.shapeFixture f = Ok out /\
    prop out "status" = VStr "NS" /\
    prop out "live" = VBool false /\
    prop out "round" = VObj [("id", VNum 3); ("name", VStr "Round 3")] /\
    prop out "scores" =
      VArr [VObj [("participant_id", VNum 10); ("goals", VNum 0)];
            VObj [("participant_id", VNum 20); ("goals", VNum 0)]].
Proof.
  eexists. split; [reflexivity|]. split; [reflexivity|]. split; [reflexivity|].
  pose proof (proj1 (fixture_shape
                (sample_fixture (VObj [("id", VNum 3); ("name", VStr "Round 3")]))) _
                (or_introl eq_refl)) as (Hlive & Hround & _).
  split; [exact Hlive|]. split; [exact Hround | reflexivity].
Defined.

(** ** The store: expiry on read *)

Ltac split_try :=
  match goal with
  | |- context [match ?r with Ok _ => _ | Throw _ => _ end] =>
      let x := fresh "x" in destruct r as [x|?]; [try destruct x|]
  end.

Lemma Part0_refresh_frame (API_TOKEN : value) (t : task) (reply : outcome)
    (w : Cached.world) :
  Cached.now (Part0.refresh API_TOKEN t reply w) = Cached.now w /\
  NodeCache.stdTTL (Cached.appCache (Part0.refresh API_TOKEN t reply w))
  = NodeCache.stdTTL (Cached.appCache w) /\
  forall key, Cached.key_of t <> key ->
    NodeCache.data (Cached.appCache (Part0.refresh API_TOKEN t reply w)) !! key
    = NodeCache.data (Cached.appCache w) !! key.
Proof.
  destruct t; simpl; unfold_tasks; destruct (truthy API_TOKEN); simpl;
    try (repeat split; reflexivity);
    split_try; simpl; repeat split; intros; rewrite ?lookup_insert_ne by assumption;
    reflexivity.
Qed.

Lemma Part1_refresh_frame (API_TOKEN : value) (t : task) (reply : outcome)
    (w : Cached.world) :
  Cached.now (Part1.refresh API_TOKEN t reply w) = Cached.now w /\
  NodeCache.stdTTL (Cached.appCache (Part1.refresh API_TOKEN t reply w))
  = NodeCache.stdTTL (Cached.appCache w) /\
  forall key, Cached.key_of t <> key ->
    NodeCache.data (Cached.appCache (Part1.refresh API_TOKEN t reply w)) !! key
    = NodeCache.data (Cached.appCache w) !! key.
Proof.
  destruct t; simpl; unfold_tasks; destruct (truthy API_TOKEN); simpl;
    try (repeat split; reflexivity);
    split_try; simpl; repeat split; intros; rewrite ?lookup_insert_ne by assumption;
    reflexivity.
Qed.

Lemma set_at_refresh (key : string) (v : value) (since : Z) (w w' : Cached.world)
    (t : task) :
  Cached.key_of t <> key ->
  Cached.now w' = Cached.now w ->
  NodeCache.stdTTL (Cached.appCache w') = NodeCache.stdTTL (Cached.appCache w) ->
  (forall k, Cached.key_of t <> k ->
     NodeCache.data (Cached.appCache w') !! k = NodeCache.data (Cached.appCache w) !! k) ->
  set_at key v since w -> set_at key v since w'.
Proof.
  intros Hk Hn Ht Hd (S & L & D). unfold set_at.
  rewrite Hn, Ht, (Hd key Hk). auto.
Qed.

Lemma set_at_tick (key : string) (v : value) (since seconds : Z) (w : Cached.world) :
  0 <= seconds -> set_at key v since w -> set_at key v since (Cached.tick seconds w).
Proof.
  intros Hs (S & L & D). unfold set_at. simpl. repeat split; [exact S | lia |].
  destruct D as [D | [D Hlate]]; [left; exact D | right; split; [exact D | lia]].
Qed.

Lemma set_at_sweep (key : string) (v : value) (since : Z) (w : Cached.world) :
  set_at key v since w -> set_at key v since (Cached.sweep w).
Proof.
  intros (S & L & D). unfold set_at. simpl. repeat split; [exact S | exact L |].
  destruct D as [D | [D Hlate]].
  - destruct (NodeCache.expired (Cached.now w) (NodeCache.Entry v since 900)) eqn:X.
    + right. unfold NodeCache.expired in X. simpl in X. apply Z.ltb_lt in X.
      split; [|exact X]. apply map_lookup_filter_None. right.
      intros e He. rewrite D in He. injection He as <-. simpl.
      unfold NodeCache.expired. simpl. apply Z.ltb_lt in X. rewrite X. discriminate.
    + left. apply map_lookup_filter_Some. split; [exact D | exact X].
  - right. split; [|exact Hlate]. apply map_lookup_filter_None. left. exact D.
Qed.

Lemma set_at_get (key : string) (v : value) (since : Z) (w : Cached.world) :
  set_at key v since w ->
  Cached.cache_get key w = if Cached.now w - since <? 900 then v else VUndefined.
Proof.
  intros (S & L & D). unfold Cached.cache_get, NodeCache.get.
  destruct D as [-> | [-> Hlate]]; simpl; [reflexivity|].
  destruct (Z.ltb_spec (Cached.now w - since) 900); [lia | reflexivity].
Qed.

Lemma set_at_cache_set (key : string) (v : value) (w : Cached.world) :
  NodeCache.stdTTL (Cached.appCache w) = 900 ->
  set_at key v (Cached.now w) (Cached.cache_set key v w).
Proof.
  intros S. unfold set_at. simpl. repeat split; [exact S | lia |].
  left. rewrite S. apply lookup_insert_eq.
Qed.

Lemma set_at_run (API_TOKEN : value) (key : string) (v : value) (since : Z)
    (events : list Cached.event) (w : Cached.world) :
  quiet key events -> set_at key v since w ->
  set_at key v since (Part0.run API_TOKEN events w) /\
  set_at key v since (Part1.run API_TOKEN events w).
Proof.
  intros Q. revert w. induction Q as [|e events He _ IH]; intros w H; simpl; [auto|].
  destruct e as [t reply | seconds |]; simpl.
  - destruct (Part0_refresh_frame API_TOKEN t reply w) as (N0 & T0 & D0).
    destruct (Part1_refresh_frame API_TOKEN t reply w) as (N1 & T1 & D1).
    split; [apply (IH (Part0.refresh API_TOKEN t reply w))
           | apply (IH (Part1.refresh API_TOKEN t reply w))];
      eapply set_at_refresh; eauto.
  - split; apply (IH (Cached.tick seconds w)); apply set_at_tick; assumption.
  - split; apply (IH (Cached.sweep w)); apply set_at_sweep; assumption.
Qed.

(** Every world the [part_000] listings reach keeps the ttl of 900 seconds
    the store was created with. *)
Lemma stdTTL_kept (API_TOKEN : value) (events : list Cached.event) (w : Cached.world) :
  NodeCache.stdTTL (Cached.appCache (Part0.run API_TOKEN events w))
  = NodeCache.stdTTL (Cached.appCache w) /\
  NodeCache.stdTTL (Cached.appCache (Part1.run API_TOKEN events w))
  = NodeCache.stdTTL (Cached.appCache w).
Proof.
  revert w. induction events as [|e events IH]; intros w; simpl; [auto|].
  destruct e as [t reply | seconds |]; simpl.
  - destruct (Part0_refresh_frame API_TOKEN t reply w) as (_ & T0 & _).
    destruct (Part1_refresh_frame API_TOKEN t reply w) as (_ & T1 & _).
    destruct (IH (Part0.refresh API_TOKEN t reply w)) as [-> _].
    destruct (IH (Part1.refresh API_TOKEN t reply w)) as [_ ->]. auto.
  - apply (IH (Cached.tick seconds w)).
  - apply (IH (Cached.sweep w)).
Qed.

(** C2. In every world the [part_000] listings reach, the store has its
    ttl of 900 seconds: after [set(key, v)], and with no later write of
    [key], [get(key)] answers [v] as long as fewer than 900 seconds have
    passed and [undefined] from then on, whether or not a sweep has run in
    between and whatever the tasks of the other keys did. [get] is a total
    function: it never throws. *)
Theorem get_within_ttl (API_TOKEN : value) (key : string) (v : value) (t0 : Z)
    (before events : list Cached.event) :
  quiet key events ->
  (let w := Part0.run API_TOKEN before (Cached.start t0) in
   let w1 := Part0.run API_TOKEN events (Cached.cache_set key v w) in
   Cached.cache_get key w1
   = if Cached.now w1 - Cached.now w <? 900 then v else VUndefined) /\
  (let w := Part1.run API_TOKEN before (Cached.start t0) in
   let w1 := Part1.run API_TOKEN events (Cached.cache_set key v w) in
   Cached.cache_get key w1
   = if Cached.now w1 - Cached.now w <? 900 then v else VUndefined).
Proof.
  intros Q.
  destruct (stdTTL_kept API_TOKEN before (Cached.start t0)) as [S0 S1].
  split; intros w w1; apply set_at_get.
  - apply (set_at_run API_TOKEN key v (Cached.now w) events _ Q
             (set_at_cache_set key v w S0)).
  - apply (set_at_run API_TOKEN key v (Cached.now w) events _ Q
             (set_at_cache_set key v w S1)).
Qed.

Lemma get_within_ttl_witness :
  let before := [Cached.Refresh Teams (Resolved live_body); Cached.Tick 30] in
  let w0 := Cached.cache_set "teams" (VArr [VNum 1]) (Part0.run token before (Cached.start 0)) in
  let busy := [Cached.Tick 100; Cached.Sweep;
               Cached.Refresh LiveScores (Resolved live_body); Cached.Tick 799] in
  let late := [Cached.Tick 100; Cached.Sweep;
               Cached.Refresh LiveScores (Resolved live_body); Cached.Tick 799;
               Cached.Tick 1] in
  Cached.cache_get "teams" (Part0.run token busy w0) = VArr [VNum 1] /\
  Cached.cache_get "teams" (Part0.run token late w0) = VUndefined.
Proof.
  assert (Q : quiet "teams"
                [Cached.Tick 100; Cached.Sweep;
                 Cached.Refresh LiveScores (Resolved live_body); Cached.Tick 799]).
  { repeat constructor; simpl; intros H; discriminate H. }
  assert (Q1 : quiet "teams"
                 [Cached.Tick 100; Cached.Sweep;
                  Cached.Refresh LiveScores (Resolved live_body); Cached.Tick 799;
                  Cached.Tick 1]).
  { repeat constructor; simpl; intros H; discriminate H. }
  split.
  - rewrite (proj1 (get_within_ttl token "teams" (VArr [VNum 1]) 0
                      [Cached.Refresh Teams (Resolved live_body); Cached.Tick 30] _ Q)).
    reflexivity.
  - rewrite (proj1 (get_within_ttl token "teams" (VArr [VNum 1]) 0
                      [Cached.Refresh Teams (Resolved live_body); Cached.Tick 30] _ Q1)).
    reflexivity.
Defined.

(** ** [src/server.js]: a cache is a variable *)

Lemma ServerJs_refresh_frame (API_TOKEN : value) (t t' : task) (reply : outcome)
    (w : ServerJs.world) :
  t <> t' ->
  ServerJs.cache t' (ServerJs.refresh API_TOKEN t reply w) = ServerJs.cache t' w.
Proof.
  intros Hne. destruct t; simpl; unfold_tasks; destruct (truthy API_TOKEN); simpl;
    try (destruct t'; reflexivity);
    split_try; destruct t'; simpl; congruence.
Qed.

Lemma ServerJs_run_frame (API_TOKEN : value) (t : task)
    (schedule : list (task * outcome)) (w : ServerJs.world) :
  without t schedule ->
  ServerJs.cache t (ServerJs.run API_TOKEN schedule w) = ServerJs.cache t w.
Proof.
  intros H. revert w. induction H as [|[t' r'] schedule Hne _ IH]; intros w; simpl.
  - reflexivity.
  - rewrite IH. apply ServerJs_refresh_frame. simpl in Hne. congruence.
Qed.

Lemma ServerJs_route_of_cache (t : task) (w1 w2 : ServerJs.world) :
  ServerJs.cache t w1 = ServerJs.cache t w2 -> ServerJs.route t w1 = ServerJs.route t w2.
Proof.
  destruct t; simpl;
    unfold ServerJs.getLeagues, ServerJs.getTeams, ServerJs.getLiveScores,
      ServerJs.getFixtures; intros ->; reflexivity.
Qed.

(** In [src/server.js] nothing expires: once a task has assigned its
    variable, the variable holds that list for as long as the task does not
    run again, however many other tasks run, and the route answers from it
    as it did right after the refresh. After a successful leagues or teams
    refresh the route keeps serving the projected list. *)
Theorem variable_never_expires (API_TOKEN : value) (t : task) (reply : outcome)
    (w : ServerJs.world) (schedule : list (task * outcome)) :
  without t schedule ->
  let w0 := ServerJs.refresh API_TOKEN t reply w in
  let w1 := ServerJs.run API_TOKEN schedule w0 in
  ServerJs.cache t w1 = ServerJs.cache t w0 /\
  respond (ServerJs.route t w1) = respond (ServerJs.route t w0) /\
  (t = Leagues \/ t = Teams ->
   respond (ServerJs.route t w1) = Json (VObj [("data", ServerJs.cache t w0)])) /\
  (t = Leagues \/ t = Teams ->
   forall body v,
     truthy API_TOKEN = true -> reply = Resolved body -> nullish body = false ->
     call_map "data.data.map" (prop body "data") summary = Ok v ->
     respond (ServerJs.route t w1) = Json (VObj [("data", v)])).
Proof.
  intros H w0 w1.
  pose proof (ServerJs_run_frame API_TOKEN t schedule w0 H) as Hc. fold w1 in Hc.
  assert (Hserve : t = Leagues \/ t = Teams ->
            respond (ServerJs.route t w1) = Json (VObj [("data", ServerJs.cache t w0)])).
  { intros [-> | ->]; simpl in *; unfold ServerJs.getLeagues, ServerJs.getTeams;
      rewrite Hc; reflexivity. }
  split; [exact Hc|]. split; [|split].
  - rewrite (ServerJs_route_of_cache t w1 w0 Hc). reflexivity.
  - exact Hserve.
  - intros Ht body v T -> N M. rewrite (Hserve Ht). subst w0.
    destruct Ht as [-> | ->]; simpl; unfold_tasks; rewrite T; simpl;
      rewrite (member_prop body "data" N); simpl; rewrite M; reflexivity.
Qed.

Lemma variable_never_expires_witness :
  respond
    (ServerJs.getLeagues
       (ServerJs.run token
          [(LiveScores, Resolved live_body); (Teams, Rejected (TypeError "x"));
           (Fixtures, Resolved body_without_data)]
          (ServerJs.refresh token Leagues
             (Resolved (VObj [("data", VArr [VObj [("id", VNum 8); ("name", VStr "Cup")]])]))
             ServerJs.start)))
  = Json (VObj [("data", VArr [VObj [("id", VNum 8); ("name", VStr "Cup");
                                     ("image_path", VUndefined)]])]).
Proof.
  assert (H : without Leagues
                [(LiveScores, Resolved live_body); (Teams, Rejected (TypeError "x"));
                 (Fixtures, Resolved body_without_data)]).
  { repeat constructor; simpl; intros H; discriminate H. }
  destruct (variable_never_expires token Leagues
              (Resolved (VObj [("data", VArr [VObj [("id", VNum 8); ("name", VStr "Cup")]])]))
              ServerJs.start _ H) as (_ & _ & _ & Hv).
  exact (Hv (or_introl eq_refl) _ _ eq_refl eq_refl eq_refl eq_refl).
Defined.

(** ** The projection of leagues and teams *)

Lemma summary_Ok (x y : value) :
  summary x = Ok y ->
  nullish x = false /\
  y = VObj [("id", prop x "id"); ("name", prop x "name");
            ("image_path", prop x "image_path")].
Proof.
  intros H. unfold summary in H. unbind_all H. use_member.
  injection H as <-. auto.
Qed.

(** The projection keeps [id], [name] and [image_path] and nothing else,
    and projecting a projected record gives the same record again. *)
Theorem summary_projection (x y : value) :
  summary x = Ok y ->
  summary y = Ok y /\
  prop y "id" = prop x "id" /\
  prop y "name" = prop x "name" /\
  prop y "image_path" = prop x "image_path" /\
  forall k, k <> "id" -> k <> "name" -> k <> "image_path" -> prop y k = VUndefined.
Proof.
  intros H. apply summary_Ok in H. destruct H as [_ ->].
  repeat split. intros k H1 H2 H3. cbn [prop own].
  rewrite (proj2 (String.eqb_neq "id" k)) by congruence.
  rewrite (proj2 (String.eqb_neq "name" k)) by congruence.
  rewrite (proj2 (String.eqb_neq "image_path" k)) by congruence.
  reflexivity.
Qed.

Lemma summary_projection_witness :
  let league := VObj [("id", VNum 8); ("sport_id", VNum 1); ("name", VStr "Cup");
                      ("image_path", VStr "cup.png"); ("active", VBool true)] in
  let kept := VObj [("id", VNum 8); ("name", VStr "Cup"); ("image_path", VStr "cup.png")] in
  summary league = Ok kept /\ summary kept = Ok kept /\ prop kept "sport_id" = VUndefined.
Proof.
  split; [reflexivity|].
  destruct (summary_projection
              (VObj [("id", VNum 8); ("sport_id", VNum 1); ("name", VStr "Cup");
                     ("image_path", VStr "cup.png"); ("active", VBool true)])
              _ eq_refl) as (Hi & _ & _ & _ & Hk).
  split; [exact Hi|]. apply Hk; intros H; discriminate H.
Defined.

Lemma projected_rows (callee : string) (v : value) (out : value) :
  call_map callee v summary = Ok out ->
  exists rows ys,
    v = VArr rows /\ out = VArr ys /\
    Forall2 (fun x y => nullish x = false /\ summary x = Ok y) rows ys.
Proof.
  intros H. apply call_map_Ok in H. destruct H as (rows & ys & -> & -> & F).
  exists rows, ys. repeat split.
  eapply Forall2_impl; [exact F|]. intros x y Hxy. split; [|exact Hxy].
  apply summary_Ok in Hxy. apply Hxy.
Qed.

Lemma try_summaries (reply : outcome) (out : value) :
  (data <- await reply ;; rows <- member data "data" ;;
   call_map "data.data.map" rows summary) = Ok out ->
  exists body rows ys,
    reply = Resolved body /\ prop body "data" = VArr rows /\ out = VArr ys /\
    Forall2 (fun x y => nullish x = false /\ summary x = Ok y) rows ys.
Proof.
  intros H. unbind_all H. use_member.
  destruct reply as [body | err]; simpl in E; [injection E as <- | discriminate].
  apply projected_rows in H. destruct H as (rows & ys & Hd & -> & F).
  exists body, rows, ys. auto.
Qed.

(** A leagues or teams task with a token ends in one of two ways. Either
    the body's [data] is an array without a null entry: the cache then
    holds the projection of every row, in order, and the success line is
    printed. Or nothing is written at all and the error line is printed:
    no cache ever holds a part of a list. *)
Theorem summaries_all_or_nothing (API_TOKEN : value) (t : task) (reply : outcome) :
  truthy API_TOKEN = true -> t = Leagues \/ t = Teams ->
  (forall w,
     let w' := ServerJs.refresh API_TOKEN t reply w in
     (exists body rows ys label,
        reply = Resolved body /\ prop body "data" = VArr rows /\
        Forall2 (fun x y => nullish x = false /\ summary x = Ok y) rows ys /\
        ServerJs.cache t w' = VArr ys /\
        ServerJs.console w' = (ServerJs.console w ++ [Line Log [VStr label]])%list) \/
     ((forall t', ServerJs.cache t' w' = ServerJs.cache t' w) /\
      exists label err,
        ServerJs.console w'
        = (ServerJs.console w ++ [Line Error [VStr label; error_text err]])%list)) /\
  (forall w,
     let w' := Part0.refresh API_TOKEN t reply w in
     (exists body rows ys,
        reply = Resolved body /\ prop body "data" = VArr rows /\
        Forall2 (fun x y => nullish x = false /\ summary x = Ok y) rows ys /\
        Cached.appCache w'
        = NodeCache.set (Cached.now w) (Cached.key_of t) (VArr ys) (Cached.appCache w) /\
        exists label n,
          Cached.console w' = (Cached.console w ++ [Line Log [VStr label; VNum n]])%list) \/
     (Cached.appCache w' = Cached.appCache w /\
      exists label err,
        Cached.console w'
        = (Cached.console w ++ [Line Error [VStr label; error_text err]])%list)).
Proof.
  intros T Ht. split; intros w; destruct Ht as [-> | ->]; simpl; unfold_tasks;
    rewrite T; simpl;
    match goal with
    | |- context [match ?r with Ok _ => _ | Throw _ => _ end] => destruct r eqn:E
    end;
    try (right; split; [try (intros []); reflexivity | eauto]);
    left; apply try_summaries in E; destruct E as (body & rows & ys & -> & Hd & -> & F);
    exists body, rows, ys; simpl; eauto 10.
Qed.

Lemma summaries_all_or_nothing_witness :
  let w := ServerJs.refresh token Leagues (Resolved live_body) ServerJs.start in
  all_or_nothing Leagues (Resolved broken_body) w
    (ServerJs.refresh token Leagues (Resolved broken_body) w).
Proof.
  exact (proj1 (summaries_all_or_nothing token Leagues (Resolved broken_body)
                  eq_refl (or_introl eq_refl))
           (ServerJs.refresh token Leagues (Resolved live_body) ServerJs.start)).
Defined.

(** ** What a task touches *)

Lemma key_of_inj (t t' : task) : t <> t' -> Cached.key_of t <> Cached.key_of t'.
Proof. destruct t, t'; simpl; intros H; try congruence; discriminate. Qed.

(** A task writes its own cache and no other: whatever its request brings,
    the other three variables of [src/server.js] hold what they held, and
    the store of the [part_000] listings answers the other three keys as
    before. *)
Theorem task_writes_own_cache_only (API_TOKEN : value) (t t' : task) (reply : outcome) :
  t <> t' ->
  (forall w,
     ServerJs.cache t' (ServerJs.refresh API_TOKEN t reply w) = ServerJs.cache t' w) /\
  (forall w,
     Cached.cache_get (Cached.key_of t') (Part0.refresh API_TOKEN t reply w)
     = Cached.cache_get (Cached.key_of t') w) /\
  (forall w,
     Cached.cache_get (Cached.key_of t') (Part1.refresh API_TOKEN t reply w)
     = Cached.cache_get (Cached.key_of t') w).
Proof.
  intros Hne. repeat split; intros w.
  - apply ServerJs_refresh_frame, Hne.
  - destruct (Part0_refresh_frame API_TOKEN t reply w) as (Hn & _ & Hd).
    unfold Cached.cache_get, NodeCache.get. rewrite Hn, (Hd _ (key_of_inj t t' Hne)).
    reflexivity.
  - destruct (Part1_refresh_frame API_TOKEN t reply w) as (Hn & _ & Hd).
    unfold Cached.cache_get, NodeCache.get. rewrite Hn, (Hd _ (key_of_inj t t' Hne)).
    reflexivity.
Qed.

Lemma task_writes_own_cache_only_witness :
  let c := Part0.refresh token Teams (Resolved live_body) (Cached.start 0) in
  Cached.cache_get "teams" (Part0.refresh token LiveScores (Resolved body_without_data) c)
  = Cached.cache_get "teams" c.
Proof.
  assert (H : LiveScores <> Teams) by (intros H; discriminate H).
  exact (proj1 (proj2 (task_writes_own_cache_only token LiveScores Teams
                         (Resolved body_without_data) H))
           (Part0.refresh token Teams (Resolved live_body) (Cached.start 0))).
Defined.

(** ** The requests sent upstream *)

Lemma ServerJs_refresh_sent (API_TOKEN : value) (t : task) (reply : outcome)
    (w : ServerJs.world) :
  truthy API_TOKEN = true ->
  ServerJs.sent (ServerJs.refresh API_TOKEN t reply w)
  = (ServerJs.sent w ++ [request_of API_TOKEN t])%list.
Proof.
  intros T. destruct t; simpl; unfold_tasks; rewrite T; simpl;
    split_try; reflexivity.
Qed.

Lemma Part0_refresh_sent (API_TOKEN : value) (t : task) (reply : outcome)
    (w : Cached.world) :
  truthy API_TOKEN = true ->
  Cached.sent (Part0.refresh API_TOKEN t reply w)
  = (Cached.sent w ++ [request_of API_TOKEN t])%list /\
  Cached.sent (Part1.refresh API_TOKEN t reply w)
  = (Cached.sent w ++ [request_of API_TOKEN t])%list.
Proof.
  intros T. destruct t; simpl; unfold_tasks; rewrite T; simpl;
    split; split_try; reflexivity.
Qed.

(** With a token, every run of a task sends exactly one request, the one of
    its path with the token, whether the run succeeds or fails: after any
    schedule the requests sent are those of the tasks run, in order. No
    task retries and no route sends anything. *)
Theorem one_request_per_run (API_TOKEN : value) :
  truthy API_TOKEN = true ->
  (forall schedule w,
     ServerJs.sent (ServerJs.run API_TOKEN schedule w)
     = (ServerJs.sent w ++ List.map (fun r => request_of API_TOKEN (fst r)) schedule)%list) /\
  (forall events w,
     Cached.sent (Part0.run API_TOKEN events w)
     = (Cached.sent w ++ List.map (request_of API_TOKEN) (tasks_of events))%list /\
     Cached.sent (Part1.run API_TOKEN events w)
     = (Cached.sent w ++ List.map (request_of API_TOKEN) (tasks_of events))%list).
Proof.
  intros T. split.
  - induction schedule as [|[t reply] rest IH]; intros w; simpl.
    + rewrite app_nil_r. reflexivity.
    + rewrite IH, (ServerJs_refresh_sent API_TOKEN t reply w T), <- app_assoc.
      reflexivity.
  - induction events as [|e rest IH]; intros w; simpl.
    + rewrite app_nil_r. auto.
    + destruct (IH (Part0.step API_TOKEN e w)) as [H0 _].
      destruct (IH (Part1.step API_TOKEN e w)) as [_ H1].
      rewrite H0, H1. destruct e as [t reply | seconds |]; simpl; auto.
      destruct (Part0_refresh_sent API_TOKEN t reply w T) as [-> ->].
      rewrite <- !app_assoc. auto.
Qed.

Lemma one_request_per_run_witness :
  ServerJs.sent
    (ServerJs.run token
       [(Leagues, Rejected (TypeError "x")); (LiveScores, Resolved live_body)]
       ServerJs.start)
  = [request_of token Leagues; request_of token LiveScores].
Proof.
  exact (proj1 (one_request_per_run token eq_refl)
           [(Leagues, Rejected (TypeError "x")); (LiveScores, Resolved live_body)]
           ServerJs.start).
Defined.

(** ** The start of the process *)

(** [initializeData] runs all four tasks whatever happens to each of them:
    with a token it sends the four requests in the order leagues, teams,
    live scores, fixtures, and each cache ends as its own task alone would
    have left it, so a failure of one task costs the others nothing. *)
Theorem initializeData_isolates_failures (API_TOKEN : value)
    (leagues teams liveScores fixtures : outcome) (w : ServerJs.world) :
  let w' := ServerJs.initializeData API_TOKEN leagues teams liveScores fixtures w in
  let reply_of t :=
    match t with
    | Leagues => leagues | Teams => teams
    | LiveScores => liveScores | Fixtures => fixtures
    end in
  (forall t, ServerJs.cache t w'
             = ServerJs.cache t (ServerJs.refresh API_TOKEN t (reply_of t) w)) /\
  (truthy API_TOKEN = true ->
   ServerJs.sent w'
   = (ServerJs.sent w
      ++ [request_of API_TOKEN Leagues; request_of API_TOKEN Teams;
          request_of API_TOKEN LiveScores; request_of API_TOKEN Fixtures])%list).
Proof.
  intros w' reply_of. subst w'. unfold ServerJs.initializeData.
  change (ServerJs.fetchFootballLeagues API_TOKEN)
    with (ServerJs.refresh API_TOKEN Leagues).
  change (ServerJs.fetchFootballTeams API_TOKEN)
    with (ServerJs.refresh API_TOKEN Teams).
  change (ServerJs.fetchFootballLiveScores API_TOKEN)
    with (ServerJs.refresh API_TOKEN LiveScores).
  change (ServerJs.fetchFootballFixtures API_TOKEN)
    with (ServerJs.refresh API_TOKEN Fixtures).
  cbv zeta. split.
  - assert (forall t t' r w0, t <> t' ->
              ServerJs.cache t' (ServerJs.refresh API_TOKEN t r w0) = ServerJs.cache t' w0)
      as F by (intros; apply ServerJs_refresh_frame; assumption).
    assert (forall t r w1 w2,
              ServerJs.cache t w1 = ServerJs.cache t w2 ->
              ServerJs.cache t (ServerJs.refresh API_TOKEN t r w1)
              = ServerJs.cache t (ServerJs.refresh API_TOKEN t r w2)) as G.
    { intros t r w1 w2 Hc. destruct t; simpl in *; unfold_tasks;
        destruct (truthy API_TOKEN); simpl; try exact Hc;
        split_try; simpl; try reflexivity; exact Hc. }
    intros t. destruct t; subst reply_of; cbv beta iota.
    + rewrite (F Fixtures Leagues), (F LiveScores Leagues), (F Teams Leagues)
        by discriminate.
      reflexivity.
    + rewrite (F Fixtures Teams), (F LiveScores Teams) by discriminate.
      apply G, F. discriminate.
    + rewrite (F Fixtures LiveScores) by discriminate.
      apply G. rewrite (F Teams LiveScores), (F Leagues LiveScores) by discriminate.
      reflexivity.
    + apply G.
      rewrite (F LiveScores Fixtures), (F Teams Fixtures), (F Leagues Fixtures)
        by discriminate.
      reflexivity.
  - intros T. rewrite !ServerJs_refresh_sent by exact T. rewrite <- !app_assoc.
    reflexivity.
Qed.

Lemma initializeData_isolates_failures_witness :
  ServerJs.sent
    (ServerJs.initializeData token (Rejected (TypeError "x")) (Resolved live_body)
       (Resolved body_without_data) (Rejected (TypeError "y")) ServerJs.start)
  = [request_of token Leagues; request_of token Teams;
     request_of token LiveScores; request_of token Fixtures].
Proof.
  exact (proj2 (initializeData_isolates_failures token (Rejected (TypeError "x"))
                  (Resolved live_body) (Resolved body_without_data)
                  (Rejected (TypeError "y")) ServerJs.start) eq_refl).
Defined.

(** ** The score rows *)

Lemma goals_of_find (id ls : value) (ss : list value) :
  array_find (fun s =>
                participant_id <- member s "participant_id" ;;
                Ok (VBool (strict_eq participant_id id))) ss = Ok ls ->
  or_else (opt_member ls "goals") (VNum 0) = goals_of id ss.
Proof.
  revert ls. induction ss as [|s ss IH]; simpl; intros ls H.
  - injection H as <-. reflexivity.
  - unbind H. unbind E. use_member. injection E as <-. simpl in H.
    destruct (strict_eq (prop s "participant_id") id).
    + injection H as <-. rewrite opt_member_is_prop. reflexivity.
    + apply IH, H.
Qed.

Lemma goals_of_find_strict (team ls : value) (ss : list value) :
  nullish team = false ->
  array_find (fun s =>
                participant_id <- member s "participant_id" ;;
                id <- member team "id" ;;
                Ok (VBool (strict_eq participant_id id))) ss = Ok ls ->
  or_else (opt_member ls "goals") (VNum 0) = goals_of (prop team "id") ss.
Proof.
  intros N. revert ls. induction ss as [|s ss IH]; simpl; intros ls H.
  - injection H as <-. reflexivity.
  - unbind H. unbind_all E. use_member. injection E as <-. simpl in H.
    destruct (strict_eq (prop s "participant_id") (prop team "id")).
    + injection H as <-. rewrite opt_member_is_prop. reflexivity.
    + apply IH, H.
Qed.

Lemma Part0_scores (m out : value) :
  Part0.shapeMatch m = Ok out ->
  exists ss,
    prop m "scores" = VArr ss /\
    prop out "scores" =
      VArr [VObj [("team_id", prop out "localteam_id");
                  ("score", goals_of (prop out "localteam_id") ss)];
            VObj [("team_id", prop out "visitorteam_id");
                  ("score", goals_of (prop out "visitorteam_id") ss)]].
Proof.
  intros H. unfold Part0.shapeMatch in H. unbind_all H. use_member.
  injection H as <-.
  destruct (prop m "scores") as [| | | | |ss|] eqn:S; try discriminate.
  simpl in E4, E6. apply goals_of_find in E4. apply goals_of_find in E6.
  exists ss. split; [reflexivity|]. cbn [prop own String.eqb Ascii.eqb Bool.eqb].
  simpl. rewrite E4, E6. reflexivity.
Qed.

Lemma ServerJs_scores (m out : value) :
  ServerJs.shapeMatch m = Ok out ->
  exists ss,
    prop m "scores" = VArr ss /\
    prop out "scores" =
      VArr [VObj [("team_id", prop out "localteam_id");
                  ("score", goals_of (prop out "localteam_id") ss)];
            VObj [("team_id", prop out "visitorteam_id");
                  ("score", goals_of (prop out "visitorteam_id") ss)]].
Proof.
  intros H. unfold ServerJs.shapeMatch in H. unbind_all H. use_member.
  injection H as <-.
  destruct (prop m "scores") as [| | | | |ss|] eqn:S; try discriminate.
  simpl in E4, E6.
  apply goals_of_find_strict in E4; [|assumption].
  apply goals_of_find_strict in E6; [|assumption].
  exists ss. split; [reflexivity|]. simpl. rewrite E4, E6. reflexivity.
Qed.

(** In every listing, a shaped match shows for each side the goals of the
    first score entry whose [participant_id] is strictly equal to that
    side's id, and 0 when there is none or its goals are falsy. In the
    guarded listing a side that is not listed has the id [undefined], which
    is equal to the [participant_id] of an entry that has none. *)
Theorem score_rows_goals (m out : value) :
  Part0.shapeMatch m = Ok out \/ ServerJs.shapeMatch m = Ok out
  \/ Part1.shapeMatch m = Ok out ->
  exists ss,
    prop m "scores" = VArr ss /\
    prop out "scores" =
      VArr [VObj [("team_id", prop out "localteam_id");
                  ("score", goals_of (prop out "localteam_id") ss)];
            VObj [("team_id", prop out "visitorteam_id");
                  ("score", goals_of (prop out "visitorteam_id") ss)]].
Proof.
  intros [H | [H | H]].
  - apply Part0_scores, H.
  - apply ServerJs_scores, H.
  - apply ServerJs_scores, H.
Qed.

Lemma score_rows_goals_witness :
  exists out ss,
    Part0.shapeMatch orphan_score_match = Ok out /\
    prop orphan_score_match "scores" = VArr ss /\
    prop out "localteam_id" = VUndefined /\
    prop out "scores" =
      VArr [VObj [("team_id", VUndefined); ("score", VNum 4)];
            VObj [("team_id", VNum 20); ("score", VNum 1)]].
Proof.
  destruct (score_rows_goals orphan_score_match _ (or_introl eq_refl))
    as (ss & Hss & Hrows).
  eexists. exists ss. split; [reflexivity|]. split; [exact Hss|].
  split; reflexivity.
Defined.

(** ** Defaults and flags of a shaped match *)

Lemma goals_of_default (id : value) (ss : list value) :
  truthy (goals_of id ss) = true \/ goals_of id ss = VNum 0.
Proof.
  induction ss as [|s ss IH]; simpl; [auto|].
  destruct (strict_eq (prop s "participant_id") id); [|exact IH].
  unfold or_else. destruct (truthy (prop s "goals")) eqn:T; auto.
Qed.

Lemma shaped_of_any (m out : value) :
  Part0.shapeMatch m = Ok out \/ ServerJs.shapeMatch m = Ok out
  \/ Part1.shapeMatch m = Ok out ->
  exists lt vt ls vs r st mi,
    round_name m = Ok r /\
    (Part0.status_of "match" m = Ok st
     \/ call_toUpperCase "match.state.state.toUpperCase" (state_state m) = Ok st) /\
    out = shaped m lt vt ls vs r st mi.
Proof.
  intros [H | [H | H]].
  - apply Part0_shapeMatch_inv in H.
    destruct H as (lt & vt & ls & vs & r & st & mi & _ & _ & _ & Hr & Hst & _ & ->).
    do 7 eexists; eauto.
  - apply ServerJs_shapeMatch_inv in H.
    destruct H as (lt & vt & ls & vs & r & st & mi & _ & _ & _ & _ & _ & Hr & Hst & _ & ->).
    do 7 eexists; eauto.
  - apply ServerJs_shapeMatch_inv in H.
    destruct H as (lt & vt & ls & vs & r & st & mi & _ & _ & _ & _ & _ & Hr & Hst & _ & ->).
    do 7 eexists; eauto.
Qed.

(** The defaults leave no gap: in every listing the round of a shaped match
    is truthy (a name or ["N/A"]) and each score is truthy or the number 0,
    never [undefined] or [null]; in the guarded listing the status is a
    non-empty string. *)
Theorem defaults_leave_no_gap (m out : value) :
  Part0.shapeMatch m = Ok out \/ ServerJs.shapeMatch m = Ok out
  \/ Part1.shapeMatch m = Ok out ->
  truthy (prop out "round") = true /\
  (exists row0 row1,
     prop out "scores" = VArr [row0; row1] /\
     (truthy (prop row0 "score") = true \/ prop row0 "score" = VNum 0) /\
     (truthy (prop row1 "score") = true \/ prop row1 "score" = VNum 0)) /\
  (Part0.shapeMatch m = Ok out ->
   exists s, prop out "status" = VStr s /\ s <> "").
Proof.
  intros H. split; [|split].
  - destruct (shaped_of_any m out H) as (lt & vt & ls & vs & r & st & mi & Hr & _ & ->).
    apply round_name_Ok in Hr. subst r. simpl. unfold or_else.
    destruct (truthy (opt_member (prop m "round") "name")) eqn:T; [exact T | reflexivity].
  - assert (exists ss,
              prop out "scores" =
                VArr [VObj [("team_id", prop out "localteam_id");
                            ("score", goals_of (prop out "localteam_id") ss)];
                      VObj [("team_id", prop out "visitorteam_id");
                            ("score", goals_of (prop out "visitorteam_id") ss)]])
      as (ss & ->).
    { destruct H as [H | [H | H]];
        [apply Part0_scores in H | apply ServerJs_scores in H | apply ServerJs_scores in H];
        destruct H as (ss & _ & Hs); eauto. }
    do 2 eexists. split; [reflexivity|]. simpl. split; apply goals_of_default.
  - intros H0. apply Part0_shapeMatch_inv in H0.
    destruct H0 as (lt & vt & ls & vs & r & st & mi & N & _ & _ & _ & Hst & _ & ->).
    simpl. unfold Part0.status_of in Hst. unbind_all Hst. use_member.
    injection Hst as <-. unfold opt_call_toUpperCase in E0.
    destruct (nullish (opt_member (prop m "state") "state")).
    + injection E0 as <-. exists "N/A". split; [reflexivity | discriminate].
    + apply call_toUpperCase_Ok in E0. destruct E0 as (str & _ & ->).
      destruct str as [|c str]; simpl.
      * exists "N/A". split; [reflexivity | discriminate].
      * eexists. split; [reflexivity | discriminate].
Qed.

Lemma defaults_leave_no_gap_witness :
  exists out,
    Part0.shapeMatch blank_state_match = Ok out /\
    truthy (prop out "round") = true /\
    exists s, prop out "status" = VStr s /\ s <> "".
Proof.
  eexists. split; [reflexivity|].
  destruct (defaults_leave_no_gap blank_state_match _ (or_introl eq_refl))
    as (Hr & _ & Hs).
  split; [exact Hr | exact (Hs eq_refl)].
Defined.

Lemma strict_eq_VStr (v : value) (s : string) :
  strict_eq v (VStr s) = true <-> v = VStr s.
Proof.
  destruct v; simpl; split; try discriminate.
  - intros H. apply String.eqb_eq in H. congruence.
  - intros [= ->]. apply String.eqb_refl.
Qed.

(** In every listing [live] is true exactly when [state.state] is the
    string ["live"], written so; and a match that is live has the status
    ["LIVE"]. *)
Theorem live_flag (m out : value) :
  Part0.shapeMatch m = Ok out \/ ServerJs.shapeMatch m = Ok out
  \/ Part1.shapeMatch m = Ok out ->
  (prop out "live" = VBool true <-> state_state m = VStr "live") /\
  (prop out "live" = VBool true -> prop out "status" = VStr "LIVE").
Proof.
  intros H.
  destruct (shaped_of_any m out H) as (lt & vt & ls & vs & r & st & mi & _ & Hst & ->).
  assert (L : prop (shaped m lt vt ls vs r st mi) "live" = VBool true
              <-> state_state m = VStr "live").
  { simpl. rewrite <- strict_eq_VStr. split; [intros [= ->]; reflexivity | intros ->; reflexivity]. }
  split; [exact L|]. intros Hl. apply L in Hl. simpl.
  destruct Hst as [Hst | Hst].
  - apply status_of_Ok in Hst. destruct Hst as [Hup _].
    rewrite (Hup "live" Hl); [reflexivity | discriminate].
  - rewrite Hl in Hst. simpl in Hst. injection Hst as <-. reflexivity.
Qed.

Lemma live_flag_witness :
  state_state (live_match (VNum 1) (VNum 2) VNull VNull) = VStr "live" /\
  prop (live_shaped (VNum 1) (VNum 2) VNull VNull) "status" = VStr "LIVE".
Proof.
  destruct (live_flag (live_match (VNum 1) (VNum 2) VNull VNull)
              (live_shaped (VNum 1) (VNum 2) VNull VNull) (or_introl eq_refl))
    as [Hiff Hstatus].
  split; [exact (proj1 Hiff eq_refl) | exact (Hstatus eq_refl)].
Defined.

(** ** The routes as a whole *)

Lemma array_map_Throw (cb : value -> result value) (pre post : list value)
    (m : value) (e : exn) :
  answers cb pre -> cb m = Throw e -> array_map cb (pre ++ m :: post) = Throw e.
Proof.
  intros A Hm. induction A as [|x pre [y Hy] _ IH]; simpl.
  - rewrite Hm. reflexivity.
  - rewrite Hy. simpl. rewrite IH. reflexivity.
Qed.

Lemma array_map_answers (cb : value -> result value) (l ys : list value) :
  array_map cb l = Ok ys -> answers cb l.
Proof.
  intros H. apply array_map_Forall2 in H. unfold answers.
  induction H; constructor; eauto.
Qed.

Lemma shaped_list_Ok (callee : string) (cached : value) (cb : value -> result value) :
  (exists body,
     (shapedData <- call_map callee cached cb ;; Ok (VObj [("data", shapedData)]))
     = Ok body)
  <-> exists ms, cached = VArr ms /\ answers cb ms.
Proof.
  split.
  - intros [body H]. apply shaped_list_inv in H. destruct H as (ms & outs & -> & _ & F).
    exists ms. split; [reflexivity|]. unfold answers.
    induction F; constructor; eauto.
  - intros (ms & -> & A). destruct (array_map_total cb ms A) as (ys & Hys & _).
    simpl. rewrite Hys. simpl. eauto.
Qed.

(** A route that shapes answers 200 exactly when its cached value is an
    array every record of which the shaper accepts; the first record the
    shaper throws on makes the route lose the whole list to that error,
    whatever stands before and after it. This holds for the guarded shaper
    too, which still throws on a record that is [null] or has no
    [participants] array. *)
Theorem one_bad_record_fails_the_list :
  (forall w,
     (exists body, ServerJs.getLiveScores w = Ok body)
     <-> exists ms, ServerJs.footballLiveScoresCache w = VArr ms
                    /\ answers ServerJs.shapeMatch ms) /\
  (forall w,
     (exists body, Part0.getLiveScores w = Ok body)
     <-> exists ms, or_else (Cached.cache_get "liveScores" w) (VArr []) = VArr ms
                    /\ answers Part0.shapeMatch ms) /\
  (forall w pre m post e,
     ServerJs.footballLiveScoresCache w = VArr (pre ++ m :: post) ->
     answers ServerJs.shapeMatch pre -> ServerJs.shapeMatch m = Throw e ->
     respond (ServerJs.getLiveScores w) = InternalServerError e) /\
  (forall w pre m post e,
     or_else (Cached.cache_get "liveScores" w) (VArr []) = VArr (pre ++ m :: post) ->
     answers Part0.shapeMatch pre -> Part0.shapeMatch m = Throw e ->
     respond (Part0.getLiveScores w) = InternalServerError e).
Proof.
  repeat split.
  - apply (proj1 (shaped_list_Ok _ _ _)).
  - apply (proj2 (shaped_list_Ok _ _ _)).
  - apply (proj1 (shaped_list_Ok _ _ _)).
  - apply (proj2 (shaped_list_Ok _ _ _)).
  - intros w pre m post e Hc A Hm. unfold ServerJs.getLiveScores. rewrite Hc. simpl.
    rewrite (array_map_Throw _ pre post m e A Hm). reflexivity.
  - intros w pre m post e Hc A Hm. unfold Part0.getLiveScores. rewrite Hc. simpl.
    rewrite (array_map_Throw _ pre post m e A Hm). reflexivity.
Qed.

Lemma one_bad_record_fails_the_list_witness :
  let body := VObj [("data", VArr [live_match (VNum 1) (VNum 2) VNull VNull; VNull;
                                   live_match (VNum 3) (VNum 2) VNull VNull])] in
  respond (Part0.getLiveScores
             (Part0.refresh token LiveScores (Resolved body) (Cached.start 0)))
  = InternalServerError (cannot_read VNull "participants").
Proof.
  apply (proj2 (proj2 (proj2 one_bad_record_fails_the_list))
           (Part0.refresh token LiveScores
              (Resolved (VObj [("data", VArr [live_match (VNum 1) (VNum 2) VNull VNull; VNull;
                                              live_match (VNum 3) (VNum 2) VNull VNull])]))
              (Cached.start 0))
           [live_match (VNum 1) (VNum 2) VNull VNull] VNull
           [live_match (VNum 3) (VNum 2) VNull VNull]).
  - reflexivity.
  - repeat constructor. eexists. reflexivity.
  - reflexivity.
Defined.

Lemma shaped_copied (m out : value) :
  Part0.shapeMatch m = Ok out \/ ServerJs.shapeMatch m = Ok out -> copied m out.
Proof.
  intros H.
  destruct (shaped_of_any m out) as (lt & vt & ls & vs & r & st & mi & _ & _ & ->).
  { destruct H; auto. }
  repeat split.
Qed.

Lemma shaped_fixture_copied (f out : value) :
  Part0.shapeFixture f = Ok out \/ ServerJs.shapeFixture f = Ok out -> copied f out.
Proof.
  intros [H | H].
  - apply Part0_shapeFixture_inv in H.
    destruct H as (lt & vt & st & _ & _ & _ & _ & ->). repeat split.
  - apply ServerJs_shapeFixture_inv in H.
    destruct H as (lt & vt & st & _ & _ & _ & _ & _ & _ & ->). repeat split.
Qed.

(** Whatever a shaping route returns lists one record per cached record,
    in the cached order, and each record carries the [id], [league_id],
    [starting_at] and [participants] of the record it was shaped from,
    unchanged. *)
Theorem routes_keep_records_in_order (body : value) :
  (forall w, ServerJs.getLiveScores w = Ok body ->
     exists ms outs,
       ServerJs.footballLiveScoresCache w = VArr ms /\
       body = VObj [("data", VArr outs)] /\ Forall2 copied ms outs) /\
  (forall w, Part0.getLiveScores w = Ok body \/ Part1.getLiveScores w = Ok body ->
     exists ms outs,
       or_else (Cached.cache_get "liveScores" w) (VArr []) = VArr ms /\
       body = VObj [("data", VArr outs)] /\ Forall2 copied ms outs) /\
  (forall w, ServerJs.getFixtures w = Ok body ->
     exists fs outs,
       ServerJs.footballFixturesCache w = VArr fs /\
       body = VObj [("data", VArr outs)] /\ Forall2 copied fs outs) /\
  (forall w, Part0.getFixtures w = Ok body \/ Part1.getFixtures w = Ok body ->
     exists fs outs,
       or_else (Cached.cache_get "fixtures" w) (VArr []) = VArr fs /\
       body = VObj [("data", VArr outs)] /\ Forall2 copied fs outs).
Proof.
  repeat split.
  - intros w H. apply shaped_list_inv in H. destruct H as (ms & outs & ? & ? & F).
    exists ms, outs. repeat split; auto.
    eapply Forall2_impl; [exact F|]. intros m out Hm. apply shaped_copied. auto.
  - intros w [H | H]; apply shaped_list_inv in H;
      destruct H as (ms & outs & ? & ? & F); exists ms, outs; repeat split; auto;
      (eapply Forall2_impl; [exact F|]); intros m out Hm; apply shaped_copied; auto.
  - intros w H. apply shaped_list_inv in H. destruct H as (ms & outs & ? & ? & F).
    exists ms, outs. repeat split; auto.
    eapply Forall2_impl; [exact F|]. intros m out Hm. apply shaped_fixture_copied. auto.
  - intros w [H | H]; apply shaped_list_inv in H;
      destruct H as (ms & outs & ? & ? & F); exists ms, outs; repeat split; auto;
      (eapply Forall2_impl; [exact F|]); intros m out Hm; apply shaped_fixture_copied; auto.
Qed.

Lemma routes_keep_records_in_order_witness :
  let w := ServerJs.refresh token Fixtures (Resolved live_body) ServerJs.start in
  exists fs outs,
    ServerJs.footballFixturesCache w = VArr fs /\
    ServerJs.getFixtures w = Ok (VObj [("data", VArr outs)]) /\
    Forall2 copied fs outs.
Proof.
  destruct (proj1 (proj2 (proj2 (routes_keep_records_in_order _)))
              (ServerJs.refresh token Fixtures (Resolved live_body) ServerJs.start)
              eq_refl) as (fs & outs & Hc & Hb & F).
  exists fs, outs. repeat split; [exact Hc | rewrite <- Hb; reflexivity | exact F].
Defined.

(** ** A [data] that is not an array *)

Lemma call_map_not_array (callee : string) (v : value) (cb : value -> result value) :
  truthy v = true -> is_array v = false ->
  call_map callee v cb = Throw (not_a_function callee).
Proof. destruct v; simpl; try discriminate; reflexivity. Qed.

(** The live-scores and fixtures tasks store whatever truthy [data] the
    body holds. When it is not an array (an object, a string, a number),
    the task still reports success, and from then on the route throws on
    [.map] ([footballLiveScoresCache.map is not a function]) and answers 500
    instead of a list. The leagues and teams tasks fail on the same body
    and keep their cache. *)
Theorem non_array_data_breaks_the_route (API_TOKEN body : value) :
  truthy API_TOKEN = true -> nullish body = false ->
  truthy (prop body "data") = true -> is_array (prop body "data") = false ->
  (forall w,
     let w' := ServerJs.refresh API_TOKEN LiveScores (Resolved body) w in
     ServerJs.cache LiveScores w' = prop body "data" /\
     respond (ServerJs.getLiveScores w')
     = InternalServerError (not_a_function "footballLiveScoresCache.map") /\
     status_code (respond (ServerJs.getLiveScores w')) = 500) /\
  (forall w,
     let w' := ServerJs.refresh API_TOKEN Fixtures (Resolved body) w in
     ServerJs.cache Fixtures w' = prop body "data" /\
     respond (ServerJs.getFixtures w')
     = InternalServerError (not_a_function "footballFixturesCache.map") /\
     status_code (respond (ServerJs.getFixtures w')) = 500) /\
  (forall w,
     NodeCache.stdTTL (Cached.appCache w) = 900 ->
     respond (Part0.getLiveScores (Part0.refresh API_TOKEN LiveScores (Resolved body) w))
     = InternalServerError (not_a_function "liveScores.map") /\
     respond (Part0.getFixtures (Part0.refresh API_TOKEN Fixtures (Resolved body) w))
     = InternalServerError (not_a_function "fixtures.map")) /\
  (forall t, t = Leagues \/ t = Teams ->
   forall w t',
     ServerJs.cache t' (ServerJs.refresh API_TOKEN t (Resolved body) w)
     = ServerJs.cache t' w).
Proof.
  intros T N D A.
  assert (O : or_else (prop body "data") (VArr []) = prop body "data")
    by (unfold or_else; rewrite D; reflexivity).
  split; [|split; [|split]].
  - intros w. simpl. unfold_tasks. rewrite T. simpl.
    rewrite (member_prop body "data" N). simpl. rewrite !O.
    unfold ServerJs.getLiveScores. simpl.
    rewrite (call_map_not_array _ _ _ D A). repeat split.
  - intros w. simpl. unfold_tasks. rewrite T. simpl.
    rewrite (member_prop body "data" N). simpl. rewrite !O.
    unfold ServerJs.getFixtures. simpl.
    rewrite (call_map_not_array _ _ _ D A). repeat split.
  - intros w S. simpl. unfold_tasks. rewrite T. simpl.
    rewrite (member_prop body "data" N). simpl. rewrite !O.
    unfold Part0.getLiveScores, Part0.getFixtures, Cached.cache_get, NodeCache.get.
    simpl. rewrite !lookup_insert_eq. simpl. rewrite S, Z.sub_diag. simpl.
    rewrite O, !(call_map_not_array _ _ _ D A). split; reflexivity.
  - intros t [-> | ->] w t'; simpl; unfold_tasks; rewrite T; simpl;
      rewrite (member_prop body "data" N); simpl;
      rewrite (call_map_not_array _ _ _ D A); destruct t'; reflexivity.
Qed.

Lemma non_array_data_breaks_the_route_witness :
  let body := VObj [("data", VObj [("message", VStr "no plan")])] in
  let w := ServerJs.refresh token LiveScores (Resolved body)
             (ServerJs.refresh token LiveScores (Resolved live_body) ServerJs.start) in
  respond (ServerJs.getLiveScores w)
  = InternalServerError (TypeError "footballLiveScoresCache.map is not a function") /\
  status_code (respond (ServerJs.getLiveScores w)) = 500.
Proof.
  destruct (non_array_data_breaks_the_route token
              (VObj [("data", VObj [("message", VStr "no plan")])])
              eq_refl eq_refl eq_refl eq_refl) as [H _].
  destruct (H (ServerJs.refresh token LiveScores (Resolved live_body) ServerJs.start))
    as (_ & He & Hs).
  split; [exact He | exact Hs].
Defined.

(** ** When the unguarded shapers return *)

Lemma located_Ok_inv (loc : string) (p b : value) :
  located loc p = Ok b -> b = VBool (at_location loc p).
Proof.
  intros H. unfold located in H. unbind_all H. use_member.
  injection H as <-. reflexivity.
Qed.

Lemma team_found_listed (loc : string) (m x : value) :
  team_at loc m = Ok x -> nullish x = false ->
  exists ps, prop m "participants" = VArr ps /\ existsb (at_location loc) ps = true.
Proof.
  intros H N. unfold team_at in H. apply call_find_Ok in H.
  destruct H as (ps & Hps & F). exists ps. split; [exact Hps|].
  destruct F as [pre post x b -> _ Hx Tb | _]; [|discriminate].
  apply located_Ok_inv in Hx. subst b. simpl in Tb.
  apply existsb_exists. exists x. split; [|exact Tb].
  apply in_elt.
Qed.

Lemma returned_complete (callee : string) (m lt vt st : value) :
  team_at "home" m = Ok lt -> nullish lt = false ->
  team_at "away" m = Ok vt -> nullish vt = false ->
  call_toUpperCase callee (state_state m) = Ok st ->
  complete m = true.
Proof.
  intros Hh Nh Ha Na Hst.
  destruct (team_found_listed "home" m lt Hh Nh) as (ps & Hps & Eh).
  destruct (team_found_listed "away" m vt Ha Na) as (ps' & Hps' & Ea).
  rewrite Hps in Hps'. injection Hps' as <-.
  apply call_toUpperCase_Ok in Hst. destruct Hst as (str & Hs & _).
  unfold complete. rewrite Hps, Eh, Ea, Hs. reflexivity.
Qed.

Lemma find_score_total_strict (callee : string) (ss team : value) :
  array_of present ss = true -> nullish team = false ->
  exists x, call_find callee ss (fun s =>
              participant_id <- member s "participant_id" ;;
              id <- member team "id" ;;
              Ok (VBool (strict_eq participant_id id))) = Ok x.
Proof.
  unfold array_of. destruct ss; try discriminate. intros H N. simpl.
  apply array_find_total. unfold answers.
  induction elems as [|s ss IH]; simpl in *; constructor.
  - apply andb_true_split in H. destruct H as [Hs _]. apply present_nullish in Hs.
    rewrite (member_prop s "participant_id" Hs). simpl.
    rewrite (member_prop team "id" N). simpl. eauto.
  - apply IH. apply andb_true_split in H. apply H.
Qed.

Lemma ServerJs_shapeMatch_total (m : value) :
  raw_match m = true -> complete m = true -> exists out, ServerJs.shapeMatch m = Ok out.
Proof.
  unfold raw_match. intros H C.
  apply andb_true_split in H. destruct H as [H Hper].
  apply andb_true_split in H. destruct H as [H Hsc].
  apply raw_fixture_parts in H. destruct H as (N & P & _).
  destruct (complete_parts m N P C) as (lt & vt & s & Hlt & Nlt & Hvt & Nvt & Ns & Hs).
  destruct (find_score_total_strict "match.scores.find" _ lt Hsc Nlt) as [ls Hls].
  destruct (find_score_total_strict "match.scores.find" _ vt Hsc Nvt) as [vs Hvs].
  destruct (minute_of_total m N Hper) as [mi Hmi].
  unfold team_at in *. unfold ServerJs.shapeMatch, round_name.
  rewrite !(member_prop m _ N). simpl. rewrite Hlt. simpl. rewrite Hvt. simpl.
  rewrite Hls. simpl. rewrite Hvs. simpl.
  rewrite (member_prop lt "id" Nlt), (member_prop vt "id" Nvt). simpl.
  rewrite (member_prop _ "state" Ns). simpl. rewrite Hs. simpl. rewrite Hmi. simpl.
  eauto.
Qed.

(** The shapers of [src/server.js] return a record exactly for the raw
    records that list both a home and an away participant and give their
    state string; on every other raw record they throw. *)
Theorem unguarded_shapers_need_both_teams (m : value) :
  (raw_match m = true ->
   ((exists out, ServerJs.shapeMatch m = Ok out) <-> complete m = true)) /\
  (raw_fixture m = true ->
   ((exists out, ServerJs.shapeFixture m = Ok out) <-> complete m = true)).
Proof.
  split; intros R; split.
  - intros [out H]. apply ServerJs_shapeMatch_inv in H.
    destruct H as (lt & vt & ls & vs & r & st & mi & _ & Hh & Ha & Nh & Na & _ & Hst & _).
    eapply returned_complete; eauto.
  - apply ServerJs_shapeMatch_total, R.
  - intros [out H]. apply ServerJs_shapeFixture_inv in H.
    destruct H as (lt & vt & st & _ & Hh & Ha & Nh & Na & Hst & _).
    eapply returned_complete; eauto.
  - apply ServerJs_shapeFixture_total, R.
Qed.

Lemma unguarded_shapers_need_both_teams_witness :
  complete away_only_match = false /\
  ~ (exists out, ServerJs.shapeMatch away_only_match = Ok out).
Proof.
  split; [reflexivity|]. intros H.
  apply (proj1 (proj1 (unguarded_shapers_need_both_teams away_only_match) eq_refl)) in H.
  discriminate H.
Defined.

(** ** The ttl of the store against the refresh intervals *)

Lemma Part0_refresh_summaries (API_TOKEN body v : value) (t : task) (w : Cached.world) :
  truthy API_TOKEN = true -> t = Leagues \/ t = Teams -> nullish body = false ->
  call_map "data.data.map" (prop body "data") summary = Ok v ->
  Cached.now (Part0.refresh API_TOKEN t (Resolved body) w) = Cached.now w /\
  Cached.appCache (Part0.refresh API_TOKEN t (Resolved body) w)
  = NodeCache.set (Cached.now w) (Cached.key_of t) v (Cached.appCache w).
Proof.
  intros T Ht N M. destruct Ht as [-> | ->]; simpl; unfold_tasks; rewrite T; simpl;
    rewrite (member_prop body "data" N); simpl; rewrite M; simpl; auto.
Qed.

Lemma set_at_after_set (key : string) (v : value) (w w' : Cached.world) :
  NodeCache.stdTTL (Cached.appCache w) = 900 ->
  Cached.now w' = Cached.now w ->
  Cached.appCache w' = NodeCache.set (Cached.now w) key v (Cached.appCache w) ->
  set_at key v (Cached.now w) w'.
Proof.
  intros S Hn Ha. unfold set_at. rewrite Hn, Ha. simpl.
  repeat split; [exact S | lia |]. left. rewrite S. apply lookup_insert_eq.
Qed.

(** In the listing of [part_000], lines 1-187, the leagues and the teams
    are refreshed every hour but stored for 900 seconds. After a successful
    refresh the route serves the projected list while fewer than 900
    seconds have passed; from then until the task runs again it serves the
    empty list, although the last refresh succeeded. *)
Theorem summaries_expire_before_the_next_refresh (API_TOKEN body v : value) (t : task)
    (t0 : Z) (before events : list Cached.event) :
  truthy API_TOKEN = true -> t = Leagues \/ t = Teams -> nullish body = false ->
  call_map "data.data.map" (prop body "data") summary = Ok v ->
  quiet (Cached.key_of t) events ->
  let w := Part0.run API_TOKEN before (Cached.start t0) in
  let w1 := Part0.run API_TOKEN events (Part0.refresh API_TOKEN t (Resolved body) w) in
  (Cached.now w1 - Cached.now w < 900 ->
   respond (Part0.route t w1) = Json (VObj [("data", v)])) /\
  (900 <= Cached.now w1 - Cached.now w ->
   respond (Part0.route t w1) = Json (VObj [("data", VArr [])])) /\
  900 * 1000 < interval t.
Proof.
  intros T Ht N M Q w w1.
  destruct (stdTTL_kept API_TOKEN before (Cached.start t0)) as [S _].
  destruct (Part0_refresh_summaries API_TOKEN body v t w T Ht N M) as [Hn Ha].
  pose proof (set_at_after_set (Cached.key_of t) v w _ S Hn Ha) as H0.
  destruct (set_at_run API_TOKEN _ _ _ events _ Q H0) as [H1 _].
  apply set_at_get in H1. fold w1 in H1.
  assert (Tv : truthy v = true).
  { apply call_map_Ok in M. destruct M as (l & ys & _ & -> & _). reflexivity. }
  repeat split.
  - intros Hlt. destruct (Z.ltb_spec (Cached.now w1 - Cached.now w) 900); [|lia].
    destruct Ht as [-> | ->]; simpl in *;
      unfold Part0.getLeagues, Part0.getTeams; rewrite H1; unfold or_else;
      rewrite Tv; reflexivity.
  - intros Hge. destruct (Z.ltb_spec (Cached.now w1 - Cached.now w) 900); [lia|].
    destruct Ht as [-> | ->]; simpl in *;
      unfold Part0.getLeagues, Part0.getTeams; rewrite H1; reflexivity.
  - destruct Ht as [-> | ->]; simpl; lia.
Qed.

Lemma summaries_expire_before_the_next_refresh_witness :
  let body := VObj [("data", VArr [VObj [("id", VNum 8); ("name", VStr "Cup")]])] in
  let w1 := Part0.run token [Cached.Tick 1000]
              (Part0.refresh token Teams (Resolved body) (Part0.run token [] (Cached.start 0))) in
  1000 * 1000 < interval Teams /\
  respond (Part0.route Teams w1) = Json (VObj [("data", VArr [])]).
Proof.
  assert (Q : quiet "teams" [Cached.Tick 1000]).
  { repeat constructor; simpl; intros H; discriminate H. }
  destruct (summaries_expire_before_the_next_refresh token
              (VObj [("data", VArr [VObj [("id", VNum 8); ("name", VStr "Cup")]])])
              _ Teams 0 [] [Cached.Tick 1000] eq_refl (or_intror eq_refl) eq_refl eq_refl Q)
    as (_ & Hlate & _).
  split; [reflexivity|]. apply Hlate. intros H; discriminate H.
Defined.
